(** * zip-encoding-fixer: filename diagnosis, repair and archive rewrite

    A shallow embedding of the engine of the repository (the module that
    exports [analyzeZip], [processZip] and [createZipFromFiles]) together
    with the properties its design document states about it.

    JavaScript strings are sequences of UTF-16 code units; they are modelled
    as [list Z] with every element in [0, 0xFFFF].  [Uint8Array]s are
    [list Z] with every element in [0, 0xFF].  Counters are [nat]. *)

From Stdlib Require Import ZArith List Bool Lia String Ascii.
From stdpp Require Import base option list gmap.

Set Default Proof Using "Type".

(** ** JavaScript strings *)

Abbreviation jsstring := (list Z) (only parsing).
Abbreviation bytes := (list Z) (only parsing).

(** An ASCII literal of the source, as code units. *)
Definition lit (s : string) : jsstring :=
  map (fun a => Z.of_nat (nat_of_ascii a)) (list_ascii_of_string s).

Module JS.

(** [s.startsWith(pre)] *)
Fixpoint startsWith (pre s : jsstring) : bool :=
  match pre, s with
  | [], _ => true
  | _ :: _, [] => false
  | p :: pre', c :: s' => (p =? c)%Z && startsWith pre' s'
  end.

(** [s.endsWith(suf)]: the last [suf.length] code units of [s] are [suf]. *)
Definition endsWith (suf s : jsstring) : bool :=
  (length suf <=? length s)%nat
  && bool_decide (drop (length s - length suf) s = suf).

(** [s.includes(sub)]: [sub] occurs at some position of [s]. *)
Fixpoint includes (sub s : jsstring) : bool :=
  match s with
  | [] => startsWith sub []
  | _ :: s' => startsWith sub s || includes sub s'
  end.

(** [s.split(sep)] for a one-character separator; [''.split('/')] is
    [['']]. *)
Fixpoint split (sep : Z) (s : jsstring) : list jsstring :=
  match s with
  | [] => [[]]
  | c :: s' =>
      if (c =? sep)%Z then [] :: split sep s'
      else match split sep s' with
           | seg :: segs => (c :: seg) :: segs
           | [] => [[c]]
           end
  end.

(** Truthiness of a string value: only [''] is falsy. *)
Definition truthy (s : jsstring) : bool :=
  match s with [] => false | _ :: _ => true end.

(** [new Uint8Array(xs)]: every element is stored modulo 256. *)
Definition Uint8Array (xs : list Z) : bytes := map (fun x => x mod 256)%Z xs.

Definition isHighSurrogate (c : Z) : bool := (0xD800 <=? c)%Z && (c <=? 0xDBFF)%Z.
Definition isLowSurrogate (c : Z) : bool := (0xDC00 <=? c)%Z && (c <=? 0xDFFF)%Z.

(** UTF-8 bytes of one scalar value. *)
Definition utf8_of_scalar (u : Z) : bytes :=
  if (u <? 0x80)%Z then [u]
  else if (u <? 0x800)%Z then
    [Z.lor 0xC0 (Z.shiftr u 6); Z.lor 0x80 (Z.land u 0x3F)]
  else if (u <? 0x10000)%Z then
    [Z.lor 0xE0 (Z.shiftr u 12);
     Z.lor 0x80 (Z.land (Z.shiftr u 6) 0x3F);
     Z.lor 0x80 (Z.land u 0x3F)]
  else
    [Z.lor 0xF0 (Z.shiftr u 18);
     Z.lor 0x80 (Z.land (Z.shiftr u 12) 0x3F);
     Z.lor 0x80 (Z.land (Z.shiftr u 6) 0x3F);
     Z.lor 0x80 (Z.land u 0x3F)].

(** [new TextEncoder().encode(s)]: UTF-8, a surrogate pair is one scalar
    value and a lone surrogate is encoded as U+FFFD. *)
Fixpoint TextEncoder_encode (s : jsstring) : bytes :=
  match s with
  | [] => []
  | c :: s' =>
      if isHighSurrogate c then
        match s' with
        | d :: s'' =>
            if isLowSurrogate d then
              utf8_of_scalar (0x10000 + (c - 0xD800) * 0x400 + (d - 0xDC00))%Z
                ++ TextEncoder_encode s''
            else utf8_of_scalar 0xFFFD ++ TextEncoder_encode s'
        | [] => utf8_of_scalar 0xFFFD
        end
      else if isLowSurrogate c then utf8_of_scalar 0xFFFD ++ TextEncoder_encode s'
      else utf8_of_scalar c ++ TextEncoder_encode s'
  end.

End JS.

(** ** Data model *)

Inductive IssueType := encoding | macos_artifact | ds_store | hidden_file.

#[export] Instance IssueType_eq_dec : EqDecision IssueType.
Proof. solve_decision. Defined.

Record DiagnosticIssue := {
  type : IssueType;
  originalPath : jsstring;
  fixedPath : option jsstring;
  description : string;
}.

Record DiagnosticReport := {
  totalFiles : nat;
  issues : list DiagnosticIssue;
  macosArtifacts : nat;
  dsStoreFiles : nat;
  encodingIssues : nat;
  hiddenFiles : nat;
  encodingConfidence : nat;
}.

Record ProcessingOptions := {
  removeMAcOSArtifacts : bool;
  removeDSStore : bool;
  removeHiddenFiles : bool;
  fixEncoding : bool;
}.

Definition DEFAULT_OPTIONS : ProcessingOptions :=
  {| removeMAcOSArtifacts := true;
     removeDSStore := true;
     removeHiddenFiles := false;
     fixEncoding := true |}.

(** [Partial<ProcessingOptions>]: a key is present or absent. *)
Record PartialOptions := {
  p_removeMAcOSArtifacts : option bool;
  p_removeDSStore : option bool;
  p_removeHiddenFiles : option bool;
  p_fixEncoding : option bool;
}.

(** [{ ...DEFAULT_OPTIONS, ...options }] *)
Definition mergeOptions (options : PartialOptions) : ProcessingOptions :=
  {| removeMAcOSArtifacts :=
       default (removeMAcOSArtifacts DEFAULT_OPTIONS) (p_removeMAcOSArtifacts options);
     removeDSStore := default (removeDSStore DEFAULT_OPTIONS) (p_removeDSStore options);
     removeHiddenFiles :=
       default (removeHiddenFiles DEFAULT_OPTIONS) (p_removeHiddenFiles options);
     fixEncoding := default (fixEncoding DEFAULT_OPTIONS) (p_fixEncoding options) |}.

(** ** Mojibake detector *)

(** A regular expression of the source that is one character class: the
    list of its inclusive code-unit ranges. *)
Definition CharClass := list (Z * Z).

Definition inClass (cls : CharClass) (c : Z) : bool :=
  existsb (fun r => (fst r <=? c)%Z && (c <=? snd r)%Z) cls.

(** [pattern.test(str)] for a character class without flags. *)
Definition test (pattern : CharClass) (str : jsstring) : bool :=
  existsb (inClass pattern) str.

Definition suspiciousPatterns : list CharClass :=
  [ [(0x80, 0x9F)%Z];
    [(0xFFFE, 0xFFFE)%Z; (0xFFFF, 0xFFFF)%Z] ].

Definition hasEncodingIssues (str : jsstring) : bool :=
  if JS.includes [0xFFFD%Z] str then true
  else existsb (fun pattern => test pattern str) suspiciousPatterns.

Definition isByteString (str : jsstring) : bool :=
  forallb (fun c => negb (c >? 0xFF)%Z) str.

(** The loop of [isLikelyEUCKR]: a matched pair consumes both bytes. *)
Fixpoint eucKrPairs (bs : bytes) : nat :=
  match bs with
  | b1 :: ((b2 :: rest) as tl) =>
      if (0x81 <=? b1)%Z && (b1 <=? 0xFE)%Z && (0x41 <=? b2)%Z && (b2 <=? 0xFE)%Z
      then S (eucKrPairs rest)
      else eucKrPairs tl
  | _ => 0
  end.

Definition isLikelyEUCKR (bs : bytes) : bool := (0 <? eucKrPairs bs)%nat.

(** ** Legacy decoders

    [new TextDecoder(label, { fatal: true }).decode(bytes)] belongs to the
    host platform, not to the repository.  The engine is stated over any
    three strict decoders: [None] is the exception that [tryDecode...]
    turns into [null]. *)

Record TextDecoders := {
  decode_euc_kr : bytes -> option jsstring;
  decode_shift_jis : bytes -> option jsstring;
  decode_gbk : bytes -> option jsstring;
}.

Module Encoding.

(** UTF-16 code units of one scalar value. *)
Definition utf16_of_scalar (u : Z) : jsstring :=
  if (u <? 0x10000)%Z then [u]
  else [(0xD800 + Z.shiftr (u - 0x10000) 10)%Z;
        (0xDC00 + Z.land (u - 0x10000) 0x3FF)%Z].

(** The EUC-KR decoder of the Encoding Standard in fatal mode, over an
    index (pointer to code point).  [lead] is the pending lead byte. *)
Fixpoint euc_kr_decoder (index : Z -> option Z) (lead : option Z) (bs : bytes)
  : option jsstring :=
  match bs with
  | [] => match lead with None => Some [] | Some _ => None end
  | b :: bs' =>
      match lead with
      | Some l =>
          if (0x41 <=? b)%Z && (b <=? 0xFE)%Z then
            match index ((l - 0x81) * 190 + (b - 0x41))%Z with
            | Some cp =>
                match euc_kr_decoder index None bs' with
                | Some out => Some (utf16_of_scalar cp ++ out)
                | None => None
                end
            | None => None
            end
          else None
      | None =>
          if (b <=? 0x7F)%Z then
            match euc_kr_decoder index None bs' with
            | Some out => Some (b :: out)
            | None => None
            end
          else if (0x81 <=? b)%Z && (b <=? 0xFE)%Z then
            euc_kr_decoder index (Some b) bs'
          else None
      end
  end.

(** A finite part of index EUC-KR: the pointers of the byte pairs
    [A1 BF] (U+00D7), [B0 A1] (U+AC00), [B1 DB] (U+AE00), [C2 85] (U+D61A),
    [C7 D1] (U+D55C) and [D7 D7] (U+5229).  Every other pointer is left
    undefined, so the decoder below rejects every other pair. *)
Definition index_euc_kr_part (pointer : Z) : option Z :=
  if (pointer =? 6206)%Z then Some 0x00D7%Z
  else if (pointer =? 9026)%Z then Some 0xAC00%Z
  else if (pointer =? 9274)%Z then Some 0xAE00%Z
  else if (pointer =? 12418)%Z then Some 0xD61A%Z
  else if (pointer =? 13444)%Z then Some 0xD55C%Z
  else if (pointer =? 16490)%Z then Some 0x5229%Z
  else None.

(** A strict decoder that accepts ASCII bytes only. *)
Definition ascii_only (bs : bytes) : option jsstring :=
  if forallb (fun b => (0 <=? b)%Z && (b <=? 0x7F)%Z) bs then Some bs else None.

(** Decoders used to run the engine on concrete names: EUC-KR on the part
    of its index above, the other two on ASCII only. *)
Definition sample : TextDecoders :=
  {| decode_euc_kr := euc_kr_decoder index_euc_kr_part None;
     decode_shift_jis := ascii_only;
     decode_gbk := ascii_only |}.

End Encoding.

(** ** Archives

    The container format is the business of the archive library.  A loaded
    archive is the sequence [Object.entries(contents.files)]: each path with
    its entry, in the order the loop visits them.  An entry has its
    directory flag and the bytes that [zipEntry.async('uint8array')]
    yields.  The archive under construction is modelled by its file
    entries: the map from the name of each file entry to its payload,
    which [targetZip.file(name, data)] updates at [name].  The library
    also adds a folder entry for every parent folder of [name]; folder
    entries carry no payload and are not in this map, so every statement
    below about the rebuilt archive is a statement about its file
    entries. *)

Record ZipEntry := {
  dir : bool;
  content : bytes;
}.

Abbreviation Archive := (list (list Z * ZipEntry)) (only parsing).

(** The local variables of the two loops. *)
Module L.
Record locals := {
  issues : list DiagnosticIssue;
  macosArtifacts : nat;
  dsStoreFiles : nat;
  encodingIssues : nat;
  hiddenFiles : nat;
  totalFiles : nat;
  targetZip : gmap (list Z) (list Z);
  processedFiles : nat;
}.

Definition init : locals :=
  {| issues := []; macosArtifacts := 0; dsStoreFiles := 0; encodingIssues := 0;
     hiddenFiles := 0; totalFiles := 0; targetZip := ∅; processedFiles := 0 |}.

(** [issues.push(i)] *)
Definition push (i : DiagnosticIssue) (st : locals) : locals :=
  {| issues := issues st ++ [i]; macosArtifacts := macosArtifacts st;
     dsStoreFiles := dsStoreFiles st; encodingIssues := encodingIssues st;
     hiddenFiles := hiddenFiles st; totalFiles := totalFiles st;
     targetZip := targetZip st; processedFiles := processedFiles st |}.

(** [macosArtifacts++] *)
Definition incMacosArtifacts (st : locals) : locals :=
  {| issues := issues st; macosArtifacts := S (macosArtifacts st);
     dsStoreFiles := dsStoreFiles st; encodingIssues := encodingIssues st;
     hiddenFiles := hiddenFiles st; totalFiles := totalFiles st;
     targetZip := targetZip st; processedFiles := processedFiles st |}.

(** [dsStoreFiles++] *)
Definition incDsStoreFiles (st : locals) : locals :=
  {| issues := issues st; macosArtifacts := macosArtifacts st;
     dsStoreFiles := S (dsStoreFiles st); encodingIssues := encodingIssues st;
     hiddenFiles := hiddenFiles st; totalFiles := totalFiles st;
     targetZip := targetZip st; processedFiles := processedFiles st |}.

(** [encodingIssues++] *)
Definition incEncodingIssues (st : locals) : locals :=
  {| issues := issues st; macosArtifacts := macosArtifacts st;
     dsStoreFiles := dsStoreFiles st; encodingIssues := S (encodingIssues st);
     hiddenFiles := hiddenFiles st; totalFiles := totalFiles st;
     targetZip := targetZip st; processedFiles := processedFiles st |}.

(** [hiddenFiles++] *)
Definition incHiddenFiles (st : locals) : locals :=
  {| issues := issues st; macosArtifacts := macosArtifacts st;
     dsStoreFiles := dsStoreFiles st; encodingIssues := encodingIssues st;
     hiddenFiles := S (hiddenFiles st); totalFiles := totalFiles st;
     targetZip := targetZip st; processedFiles := processedFiles st |}.

(** [totalFiles++] *)
Definition incTotalFiles (st : locals) : locals :=
  {| issues := issues st; macosArtifacts := macosArtifacts st;
     dsStoreFiles := dsStoreFiles st; encodingIssues := encodingIssues st;
     hiddenFiles := hiddenFiles st; totalFiles := S (totalFiles st);
     targetZip := targetZip st; processedFiles := processedFiles st |}.

(** [targetZip.file(name, data); processedFiles++], on the file entries of
    [targetZip]. *)
Definition copy (name : list Z) (data : list Z) (st : locals) : locals :=
  {| issues := issues st; macosArtifacts := macosArtifacts st;
     dsStoreFiles := dsStoreFiles st; encodingIssues := encodingIssues st;
     hiddenFiles := hiddenFiles st; totalFiles := totalFiles st;
     targetZip := <[name := data]> (targetZip st);
     processedFiles := S (processedFiles st) |}.
End L.

Definition issue (t : IssueType) (path : jsstring) (fixed : option jsstring)
    (d : string) : DiagnosticIssue :=
  {| type := t; originalPath := path; fixedPath := fixed; description := d |}.

(** The confidence computed after either loop, [Math.min(100, _)]
    included. *)
Definition calcConfidence (macosArtifacts dsStoreFiles encodingIssues : nat) : nat :=
  let encodingConfidence := 0 in
  let encodingConfidence :=
    if (0 <? macosArtifacts)%nat || (0 <? dsStoreFiles)%nat
    then encodingConfidence + 40 else encodingConfidence in
  let encodingConfidence :=
    if (0 <? encodingIssues)%nat
    then encodingConfidence + Nat.min 60 (encodingIssues * 15)
    else encodingConfidence in
  Nat.min 100 encodingConfidence.

Definition report (st : L.locals) : DiagnosticReport :=
  {| totalFiles := L.totalFiles st;
     issues := L.issues st;
     macosArtifacts := L.macosArtifacts st;
     dsStoreFiles := L.dsStoreFiles st;
     encodingIssues := L.encodingIssues st;
     hiddenFiles := L.hiddenFiles st;
     encodingConfidence :=
       calcConfidence (L.macosArtifacts st) (L.dsStoreFiles st) (L.encodingIssues st) |}.

(** ** Path classifier *)

Definition isMacOSArtifact (path : jsstring) : bool :=
  JS.startsWith (lit "__MACOSX/") path || JS.includes (lit "/__MACOSX/") path.

Definition isDSStore (path : jsstring) : bool :=
  JS.endsWith (lit ".DS_Store") path || JS.includes (lit "/.DS_Store") path.

Definition isHiddenFile (path : jsstring) : bool :=
  let parts := JS.split 47 path in
  existsb (fun part => JS.startsWith (lit ".") part
                       && negb (bool_decide (part = lit ".DS_Store"))) parts.

(** ** Encoding repair engine *)

Section Engine.

Variable D : TextDecoders.

Definition tryDecodeEUCKR (bs : bytes) : option jsstring := decode_euc_kr D bs.
Definition tryDecodeShiftJIS (bs : bytes) : option jsstring := decode_shift_jis D bs.
Definition tryDecodeGBK (bs : bytes) : option jsstring := decode_gbk D bs.

(** The guard [decoded && !hasEncodingIssues(decoded)], [null] and ['']
    being falsy: the decoded string when the guard holds. *)
Definition accept (decoded : option jsstring) : option jsstring :=
  match decoded with
  | Some d => if JS.truthy d && negb (hasEncodingIssues d) then Some d else None
  | None => None
  end.

(** The result [{ fixed, wasFixed }] is the pair [(fixed, wasFixed)]. *)
Definition fixFilenameEncoding (filename : jsstring) : jsstring * bool :=
  if negb (isByteString filename) then (filename, false)
  else if negb (hasEncodingIssues filename) then
    let bs := JS.Uint8Array filename in
    if isLikelyEUCKR bs then
      match accept (tryDecodeEUCKR bs) with
      | Some decoded => (decoded, true)
      | None => (filename, false)
      end
    else (filename, false)
  else
    let bs := JS.TextEncoder_encode filename in
    match accept (tryDecodeEUCKR bs) with
    | Some eucKrDecoded => (eucKrDecoded, true)
    | None =>
        match accept (tryDecodeShiftJIS bs) with
        | Some shiftJisDecoded => (shiftJisDecoded, true)
        | None =>
            match accept (tryDecodeGBK bs) with
            | Some gbkDecoded => (gbkDecoded, true)
            | None => (filename, false)
            end
        end
    end.

(** ** Diagnostic aggregator *)

(** One iteration of the loop of [analyzeZip]. *)
Definition analyzeEntry (st : L.locals) (kv : list Z * ZipEntry) : L.locals :=
  let (path, zipEntry) := kv in
  if dir zipEntry then st
  else
    let st := L.incTotalFiles st in
    if isMacOSArtifact path then
      L.push (issue macos_artifact path None "macOS 메타데이터 파일 (__MACOSX)")
             (L.incMacosArtifacts st)
    else if isDSStore path then
      L.push (issue ds_store path None "macOS 폴더 설정 파일 (.DS_Store)")
             (L.incDsStoreFiles st)
    else
      let st :=
        if isHiddenFile path then
          L.push (issue hidden_file path None "숨김 파일") (L.incHiddenFiles st)
        else st in
      let (fixed, wasFixed) := fixFilenameEncoding path in
      if wasFixed then
        L.push (issue encoding path (Some fixed)
                      "파일명 인코딩 문제 감지 (UTF-8로 변환 필요)")
               (L.incEncodingIssues st)
      else st.

Definition analyzeZip (contents : Archive) : DiagnosticReport :=
  report (fold_left analyzeEntry contents L.init).

(** ** Archive rewriter *)

(** One iteration of the loop of [processZip].  A counter is incremented
    whenever its check matches; the issue is pushed, and the iteration
    ends ([continue]), only when the matching option is on. *)
Definition processEntry (opts : ProcessingOptions) (st : L.locals)
    (kv : list Z * ZipEntry) : L.locals :=
  let (path, zipEntry) := kv in
  if dir zipEntry then st
  else
    let st := L.incTotalFiles st in
    let st := if isMacOSArtifact path then L.incMacosArtifacts st else st in
    if isMacOSArtifact path && removeMAcOSArtifacts opts then
      L.push (issue macos_artifact path None "삭제됨: macOS 메타데이터 파일") st
    else
      let st := if isDSStore path then L.incDsStoreFiles st else st in
      if isDSStore path && removeDSStore opts then
        L.push (issue ds_store path None "삭제됨: .DS_Store 파일") st
      else
        let st := if isHiddenFile path then L.incHiddenFiles st else st in
        if isHiddenFile path && removeHiddenFiles opts then
          L.push (issue hidden_file path None "삭제됨: 숨김 파일") st
        else
          let finalPath := path in
          let (st, finalPath) :=
            if fixEncoding opts then
              let (fixed, wasFixed) := fixFilenameEncoding path in
              if wasFixed then
                (L.push (issue encoding path (Some fixed) "파일명 인코딩 수정됨")
                        (L.incEncodingIssues st),
                 fixed)
              else (st, finalPath)
            else (st, finalPath) in
          L.copy finalPath (content zipEntry) st.

(** [processZip]: the file entries of the rebuilt archive (before the
    container encoding of [generateAsync]) and the report. *)
Definition processZip (contents : Archive) (options : PartialOptions)
  : gmap (list Z) (list Z) * DiagnosticReport :=
  let opts := mergeOptions options in
  let st := fold_left (processEntry opts) contents L.init in
  (L.targetZip st, report st).

End Engine.

(** ** Archive from host files *)

(** A host [File]: its [webkitRelativePath] when the property is there, its
    [name] and the bytes of [arrayBuffer()]. *)
Record HostFile := {
  webkitRelativePath : option (list Z);
  name : list Z;
  arrayBuffer : list Z;
}.

(** [file.webkitRelativePath || file.name] *)
Definition relativePathOf (file : HostFile) : list Z :=
  match webkitRelativePath file with
  | Some p => if JS.truthy p then p else name file
  | None => name file
  end.

(** One iteration of the loop of [createZipFromFiles]. *)
Definition addHostFile (opts : ProcessingOptions) (st : L.locals) (file : HostFile)
  : L.locals :=
  let relativePath := relativePathOf file in
  let st := L.incTotalFiles st in
  let st := if isDSStore relativePath then L.incDsStoreFiles st else st in
  if isDSStore relativePath && removeDSStore opts then
    L.push (issue ds_store relativePath None "제외됨: .DS_Store 파일") st
  else
    let st := if isHiddenFile relativePath then L.incHiddenFiles st else st in
    if isHiddenFile relativePath && removeHiddenFiles opts then
      L.push (issue hidden_file relativePath None "제외됨: 숨김 파일") st
    else L.copy relativePath (arrayBuffer file) st.

(** [createZipFromFiles]: the file entries of the archive it builds, and
    the report. *)
Definition createZipFromFiles (files : list HostFile) (options : PartialOptions)
  : gmap (list Z) (list Z) * DiagnosticReport :=
  let opts := mergeOptions options in
  let st := fold_left (addHostFile opts) files L.init in
  (L.targetZip st,
   {| totalFiles := L.totalFiles st;
      issues := L.issues st;
      macosArtifacts := 0;
      dsStoreFiles := L.dsStoreFiles st;
      encodingIssues := 0;
      hiddenFiles := L.hiddenFiles st;
      encodingConfidence := 0 |}).

(** ** The page

    The parts of the page component that compute with the engine's data:
    the preview report of folder mode and the name of the download. *)

(** [s.replace(pattern, replacement)] for a string pattern and a
    replacement without [$]: the first occurrence is replaced. *)
Fixpoint replace (pattern replacement s : list Z) : list Z :=
  if JS.startsWith pattern s then replacement ++ drop (length pattern) s
  else match s with
       | [] => []
       | c :: s' => c :: replace pattern replacement s'
       end.

(** The report that [handleFolderSelect] installs for the selected files. *)
Definition handleFolderSelect (fileList : list HostFile) : DiagnosticReport :=
  {| totalFiles := length fileList;
     issues := [];
     macosArtifacts := 0;
     dsStoreFiles :=
       length (List.filter
                 (fun f => bool_decide (name f = lit ".DS_Store")
                           || match webkitRelativePath f with
                              | Some p => JS.includes (lit ".DS_Store") p
                              | None => false
                              end)
                 fileList);
     encodingIssues := 0;
     hiddenFiles :=
       length (List.filter
                 (fun f =>
                    let path := relativePathOf f in
                    existsb (fun p => JS.startsWith (lit ".") p
                                      && negb (bool_decide (p = lit ".DS_Store")))
                            (JS.split 47 path))
                 fileList);
     encodingConfidence := 0 |}.

(** The name [handleDownload] saves the archive under; [file] is the
    name of the selected archive, if one is selected. *)
Definition handleDownload (file : option (list Z)) : list Z :=
  let originalName :=
    match file with
    | Some n => if JS.truthy n then n else lit "archive"
    | None => lit "archive"
    end in
  let baseName := replace (lit ".zip") [] originalName in
  baseName ++ lit "_fixed.zip".

(** ** The design document's predicates

    These follow the words of the design document, not the code; the
    theorems below compare them with the code. *)

Module Spec.

(** The code points of a string: a surrogate pair is one code point. *)
Fixpoint codePoints (s : jsstring) : list Z :=
  match s with
  | [] => []
  | c :: s' =>
      match s' with
      | d :: s'' =>
          if JS.isHighSurrogate c && JS.isLowSurrogate d
          then (0x10000 + (c - 0xD800) * 0x400 + (d - 0xDC00))%Z :: codePoints s''
          else c :: codePoints s'
      | [] => [c]
      end
  end.

Definition isReplacementCharacter (u : Z) : bool := (u =? 0xFFFD)%Z.

Definition isByteOrderMark (u : Z) : bool := (u =? 0xFEFF)%Z.

(** Unicode's noncharacters: U+FDD0..U+FDEF and the last two code points of
    every plane. *)
Definition isNoncharacter (u : Z) : bool :=
  ((0xFDD0 <=? u)%Z && (u <=? 0xFDEF)%Z) || (Z.land u 0xFFFE =? 0xFFFE)%Z.

Definition isC1Control (u : Z) : bool := (0x80 <=? u)%Z && (u <=? 0x9F)%Z.

(** "contains the Unicode replacement character, any byte-order-mark or
    non-character codepoint, or any codepoint in the C1 control range" *)
Definition looksDamaged (text : jsstring) : bool :=
  existsb (fun u => isReplacementCharacter u || isByteOrderMark u
                    || isNoncharacter u || isC1Control u)
          (codePoints text).

(** The segments of a path and its directory components: every segment
    that is followed by a [/]. *)
Definition segments (path : jsstring) : list jsstring := JS.split 47 path.

Definition directoryComponents (path : jsstring) : list jsstring :=
  removelast (segments path).

Definition finalSegment (path : jsstring) : jsstring := List.last (segments path) [].

(** "the final path segment equals the reserved settings filename" *)
Definition isSettingsFile (path : jsstring) : bool :=
  bool_decide (finalSegment path = lit ".DS_Store").

(** "begins with, or contains as a directory component, the reserved
    metadata-folder name", segments compared exactly. *)
Definition isMetadataArtifact (path : jsstring) : bool :=
  bool_decide (head (directoryComponents path) = Some (lit "__MACOSX"))
  || existsb (fun seg => bool_decide (seg = lit "__MACOSX")) (directoryComponents path).

(** "40 if the metadata-artifact count > 0 or the settings-file count > 0
    and 0 otherwise, plus min(60, encodingIssueCount * 15), with the total
    clamped to the range [0, 100]" *)
Definition confidence (metadataArtifactCount settingsFileCount encodingIssueCount : nat)
  : nat :=
  let signal :=
    if (0 <? metadataArtifactCount)%nat || (0 <? settingsFileCount)%nat then 40 else 0 in
  Nat.max 0 (Nat.min 100 (signal + Nat.min 60 (encodingIssueCount * 15))).

(** "count(issues where kind == k)" *)
Definition count (k : IssueType) (l : list DiagnosticIssue) : nat :=
  length (filter (fun i => type i = k) l).

End Spec.

(** ** Auxiliary definitions *)

(** The code units the detector reacts to. *)
Definition suspicious (c : Z) : bool :=
  (c =? 0xFFFD)%Z || ((0x80 <=? c)%Z && (c <=? 0x9F)%Z)
  || (c =? 0xFFFE)%Z || (c =? 0xFFFF)%Z.


(** The number of non-directory entries whose path satisfies [p]. *)
Definition countFiles (p : list Z -> bool) (contents : list (list Z * ZipEntry)) : nat :=
  length (List.filter (fun kv => negb (dir kv.2) && p kv.1) contents).

(** Hidden-file issues never name a metadata artifact. *)
Definition hiddenIssuesOutsideArtifacts (l : list DiagnosticIssue) : Prop :=
  forall i, In i l -> type i = hidden_file -> isMacOSArtifact (originalPath i) = false.

(** Every payload of the rebuilt archive [z] is the payload of a file entry
    of [contents] stored under its own path or under its repaired path. *)
Definition payloadsFrom (D : TextDecoders) (opts : ProcessingOptions)
    (contents : list (list Z * ZipEntry)) (z : gmap (list Z) (list Z)) : Prop :=
  forall name data, z !! name = Some data ->
    exists path zipEntry,
      In (path, zipEntry) contents /\ dir zipEntry = false
      /\ content zipEntry = data
      /\ (name = path
          \/ (fixEncoding opts = true /\ fixFilenameEncoding D path = (name, true))).

(** The counter that belongs to each kind of issue. *)
Definition countersOf (st : L.locals) (k : IssueType) : nat :=
  match k with
  | encoding => L.encodingIssues st
  | macos_artifact => L.macosArtifacts st
  | ds_store => L.dsStoreFiles st
  | hidden_file => L.hiddenFiles st
  end.

(** What [processZip] records of each kind: every repair, and the entries
    of a clutter kind when that kind is being removed. *)
Definition reportedOf (opts : ProcessingOptions) (st : L.locals) (k : IssueType) : nat :=
  match k with
  | encoding => L.encodingIssues st
  | macos_artifact => if removeMAcOSArtifacts opts then L.macosArtifacts st else 0
  | ds_store => if removeDSStore opts then L.dsStoreFiles st else 0
  | hidden_file => if removeHiddenFiles opts then L.hiddenFiles st else 0
  end.

(** A hidden path that is not a metadata artifact. *)
Definition hiddenOutsideArtifact (path : list Z) : bool :=
  negb (isMacOSArtifact path) && isHiddenFile path.

(** [segs.join(sep)] for a one-character separator, the inverse of
    [JS.split]. *)
Fixpoint join (sep : Z) (segs : list (list Z)) : list Z :=
  match segs with
  | [] => []
  | seg :: rest =>
      match rest with
      | [] => seg
      | _ :: _ => seg ++ sep :: join sep rest
      end
  end.

(** The file entries that the settings-file check of [processZip] counts:
    those it matches among the entries that the metadata-artifact check
    did not drop. *)
Definition countedDSStore (opts : ProcessingOptions) (path : list Z) : bool :=
  isDSStore path && negb (isMacOSArtifact path && removeMAcOSArtifacts opts).

(** The file entries that the hidden-file check of [processZip] counts:
    those it matches among the entries that neither earlier check
    dropped. *)
Definition countedHidden (opts : ProcessingOptions) (path : list Z) : bool :=
  isHiddenFile path
  && negb (isMacOSArtifact path && removeMAcOSArtifacts opts)
  && negb (isDSStore path && removeDSStore opts).

(** Whether [processZip] keeps a file entry with this path. *)
Definition kept (opts : ProcessingOptions) (path : list Z) : bool :=
  negb (isMacOSArtifact path && removeMAcOSArtifacts opts)
  && negb (isDSStore path && removeDSStore opts)
  && negb (isHiddenFile path && removeHiddenFiles opts).

(** The name under which [processZip] stores a kept entry. *)
Definition finalPathOf (D : TextDecoders) (opts : ProcessingOptions) (path : list Z)
  : list Z :=
  if fixEncoding opts && (fixFilenameEncoding D path).2
  then (fixFilenameEncoding D path).1 else path.

(** Whether [createZipFromFiles] keeps a host file. *)
Definition keptHostFile (opts : ProcessingOptions) (file : HostFile) : bool :=
  negb (isDSStore (relativePathOf file) && removeDSStore opts)
  && negb (isHiddenFile (relativePathOf file) && removeHiddenFiles opts).

(** The range of a lead byte and of a trail byte in [isLikelyEUCKR]. *)
Definition leadByte (b : Z) : bool := (0x81 <=? b)%Z && (b <=? 0xFE)%Z.
Definition trailByte (b : Z) : bool := (0x41 <=? b)%Z && (b <=? 0xFE)%Z.

(** * Properties *)

(** ** Strings *)

Lemma includes_char (x : Z) (s : list Z) :
  JS.includes [x] s = existsb (Z.eqb x) s.
Proof.
  induction s as [|c s IH]; simpl; [reflexivity|].
  rewrite IH. destruct s; rewrite andb_true_r; reflexivity.
Qed.

Lemma existsb_pointwise {A} (f g : A -> bool) (l : list A) :
  (forall x, f x = g x) -> existsb f l = existsb g l.
Proof. intros E. induction l as [|x l IH]; simpl; [|rewrite E, IH]; reflexivity. Qed.

Lemma existsb_cascade {A} (f g h : A -> bool) (l : list A) :
  (if existsb f l then true else existsb g l || (existsb h l || false))
  = existsb (fun x => f x || g x || h x) l.
Proof.
  induction l as [|x l IH]; simpl; [reflexivity|].
  rewrite <- IH.
  destruct (f x), (g x), (h x), (existsb f l), (existsb g l), (existsb h l);
    reflexivity.
Qed.

Lemma suspicious_classes (c : Z) :
  (0xFFFD =? c)%Z
  || inClass [(0x80, 0x9F)%Z] c
  || inClass [(0xFFFE, 0xFFFE)%Z; (0xFFFF, 0xFFFF)%Z] c
  = suspicious c.
Proof.
  unfold suspicious, inClass. cbn [existsb fst snd].
  destruct (Z.eqb_spec 0xFFFD c), (Z.eqb_spec c 0xFFFD),
    (Z.eqb_spec c 0xFFFE), (Z.eqb_spec c 0xFFFF),
    (Z.leb_spec 0x80 c), (Z.leb_spec c 0x9F),
    (Z.leb_spec 0xFFFE c), (Z.leb_spec c 0xFFFE),
    (Z.leb_spec 0xFFFF c), (Z.leb_spec c 0xFFFF);
    try reflexivity; lia.
Qed.

Lemma hasEncodingIssues_existsb (s : list Z) :
  hasEncodingIssues s = existsb suspicious s.
Proof.
  unfold hasEncodingIssues. rewrite includes_char.
  unfold suspiciousPatterns, test. cbn [existsb].
  rewrite existsb_cascade. apply existsb_pointwise, suspicious_classes.
Qed.

Lemma hasEncodingIssues_true_iff (s : list Z) :
  hasEncodingIssues s = true <->
  exists c, In c s /\
    (c = 0xFFFD \/ (0x80 <= c <= 0x9F) \/ c = 0xFFFE \/ c = 0xFFFF)%Z.
Proof.
  rewrite hasEncodingIssues_existsb, existsb_exists.
  split; intros (c & Hc & H); exists c; (split; [exact Hc|]);
    unfold suspicious in *.
  - rewrite !orb_true_iff, andb_true_iff in H. lia.
  - rewrite !orb_true_iff, andb_true_iff. lia.
Qed.

(** ** Prefixes, suffixes and substrings *)

Lemma startsWith_iff (pre s : list Z) :
  JS.startsWith pre s = true <-> exists b, s = pre ++ b.
Proof.
  revert s. induction pre as [|p pre IH]; intros s; simpl.
  - split; [intros _; exists s; reflexivity | reflexivity].
  - destruct s as [|c s].
    + split; [discriminate | intros [b Hb]; discriminate Hb].
    + rewrite andb_true_iff, Z.eqb_eq, IH. split.
      * intros [-> [b ->]]. exists b. reflexivity.
      * intros [b [= -> ->]]. split; [reflexivity | exists b; reflexivity].
Qed.

Lemma includes_iff (sub s : list Z) :
  JS.includes sub s = true <-> exists a b, s = a ++ sub ++ b.
Proof.
  induction s as [|c s IH]; simpl.
  - rewrite startsWith_iff. split.
    + intros [b Hb]. exists [], b. exact Hb.
    + intros (a & b & H). destruct a; [exists b; exact H | discriminate H].
  - rewrite orb_true_iff, startsWith_iff, IH. split.
    + intros [[b Hb] | (a & b & ->)].
      * exists [], b. exact Hb.
      * exists (c :: a), b. reflexivity.
    + intros (a & b & H). destruct a as [|x a].
      * left. exists b. exact H.
      * right. injection H as -> ->. exists a, b. reflexivity.
Qed.

Lemma endsWith_iff (suf s : list Z) :
  JS.endsWith suf s = true <-> exists a, s = a ++ suf.
Proof.
  unfold JS.endsWith. rewrite andb_true_iff, Nat.leb_le, bool_decide_eq_true. split.
  - intros [_ H]. exists (take (length s - length suf) s).
    rewrite <- (take_drop (length s - length suf) s) at 1. rewrite H. reflexivity.
  - intros [a ->]. rewrite length_app. split; [lia|].
    replace (length a + length suf - length suf) with (length a) by lia.
    apply drop_app_length.
Qed.

(** ** Path segments *)

Lemma split_nonempty (sep : Z) (s : list Z) : JS.split sep s <> [].
Proof.
  destruct s as [|c s]; simpl; [discriminate|].
  destruct (c =? sep)%Z; [discriminate|]. destruct (JS.split sep s); discriminate.
Qed.

Lemma split_app_sep (sep : Z) (a b : list Z) :
  JS.split sep (a ++ sep :: b) = JS.split sep a ++ JS.split sep b.
Proof.
  induction a as [|c a IH]; simpl.
  - rewrite Z.eqb_refl. reflexivity.
  - destruct (c =? sep)%Z; rewrite IH; [reflexivity|].
    pose proof (split_nonempty sep a). destruct (JS.split sep a); [congruence|reflexivity].
Qed.

Lemma split_sepfree (sep : Z) (s : list Z) :
  ~ In sep s -> JS.split sep s = [s].
Proof.
  induction s as [|c s IH]; simpl; intros H; [reflexivity|].
  destruct (Z.eqb_spec c sep) as [->|_]; [tauto|].
  rewrite IH by tauto. reflexivity.
Qed.

Lemma join_split (sep : Z) (s : list Z) : join sep (JS.split sep s) = s.
Proof.
  induction s as [|c s IH]; [reflexivity|]. cbn [JS.split].
  pose proof (split_nonempty sep s) as Hn.
  destruct (Z.eqb_spec c sep) as [->|_].
  - cbn [join]. destruct (JS.split sep s); [congruence|]. rewrite IH. reflexivity.
  - destruct (JS.split sep s) as [|seg segs]; [congruence|].
    rewrite <- IH. cbn [join]. destruct segs; reflexivity.
Qed.

Lemma join_app (sep : Z) (l1 l2 : list (list Z)) :
  l1 <> [] -> l2 <> [] -> join sep (l1 ++ l2) = join sep l1 ++ sep :: join sep l2.
Proof.
  intros H1 H2. induction l1 as [|x l1 IH]; [congruence|].
  destruct l1 as [|y l1].
  - simpl. destruct l2; [congruence|reflexivity].
  - change (join sep ((x :: y :: l1) ++ l2)) with (x ++ sep :: join sep ((y :: l1) ++ l2)).
    rewrite IH by discriminate. cbn [join]. rewrite <- app_assoc. reflexivity.
Qed.

Lemma join_last (sep : Z) (l : list (list Z)) :
  exists a, join sep l = a ++ List.last l [].
Proof.
  induction l as [|x l [a IH]]; [exists []; reflexivity|].
  destruct l as [|y l].
  - exists []. reflexivity.
  - exists (x ++ sep :: a). cbn [join]. cbn [join] in IH. rewrite IH.
    rewrite <- app_assoc. reflexivity.
Qed.

(** A path ends with its final segment. *)
Lemma path_ends_with_final_segment (path : list Z) :
  exists a, path = a ++ Spec.finalSegment path.
Proof.
  unfold Spec.finalSegment, Spec.segments.
  destruct (join_last 47 (JS.split 47 path)) as [a Ha].
  exists a. rewrite <- Ha. symmetry. apply join_split.
Qed.

Lemma in_directory_components (sep : Z) (name path : list Z) :
  ~ In sep name ->
  In name (removelast (JS.split sep path)) <->
  (exists b, path = name ++ sep :: b)
  \/ (exists a b, path = a ++ sep :: name ++ sep :: b).
Proof.
  intros Hfree. split.
  - intros Hin.
    destruct (in_split _ _ Hin) as (l1 & l2 & Hsplit).
    assert (Hl : exists d, JS.split sep path = l1 ++ [name] ++ (l2 ++ [d])).
    { exists (List.last (JS.split sep path) []).
      rewrite (app_removelast_last [] (split_nonempty sep path)) at 1.
      rewrite Hsplit, <- app_assoc. reflexivity. }
    destruct Hl as [d Hl].
    assert (Hp : path = join sep (l1 ++ [name] ++ (l2 ++ [d]))).
    { rewrite <- (join_split sep path) at 1. rewrite Hl. reflexivity. }
    set (l3 := l2 ++ [d]) in Hp.
    assert (H3 : l3 <> []) by (unfold l3; destruct l2; discriminate).
    destruct l1 as [|x l1].
    + left. exists (join sep l3). rewrite Hp.
      change ([] ++ [name] ++ l3) with ([name] ++ l3).
      rewrite (join_app sep [name] l3) by (discriminate || exact H3). reflexivity.
    + right. exists (join sep (x :: l1)), (join sep l3). rewrite Hp.
      rewrite (join_app sep (x :: l1) ([name] ++ l3)) by discriminate.
      rewrite (join_app sep [name] l3) by (discriminate || exact H3). reflexivity.
  - pose proof (split_sepfree sep name Hfree) as Hn.
    intros [[b ->] | (a & b & ->)].
    + rewrite split_app_sep, Hn.
      rewrite removelast_app by apply split_nonempty. left. reflexivity.
    + rewrite !split_app_sep, Hn.
      rewrite removelast_app
        by (intros H; apply app_eq_nil in H; destruct H as [H _]; discriminate H).
      rewrite removelast_app by apply split_nonempty.
      rewrite !in_app_iff. right. left. left. reflexivity.
Qed.

(** ** The mojibake detector *)

(** C4, as stated, fails: U+FDD0 is a noncharacter and U+FEFF is the
    byte-order mark, and the detector flags neither. *)
Lemma C4_detector_misses_noncharacter_and_bom :
  ~ (hasEncodingIssues [0xFDD0%Z] = true <-> Spec.looksDamaged [0xFDD0%Z] = true)
  /\ ~ (hasEncodingIssues [0xFEFF%Z] = true <-> Spec.looksDamaged [0xFEFF%Z] = true).
Proof.
  split; intros [_ H]; specialize (H eq_refl); vm_compute in H; discriminate H.
Qed.

(** C4 (amended): [hasEncodingIssues] flags a string if and only if one of
    its code units is U+FFFD, lies in the C1 range 0x80..0x9F, or is one of
    the two noncharacters U+FFFE and U+FFFF. *)
Theorem C4_hasEncodingIssues_iff (str : list Z) :
  hasEncodingIssues str = true <->
  exists c, In c str /\
    (c = 0xFFFD \/ (0x80 <= c <= 0x9F) \/ c = 0xFFFE \/ c = 0xFFFF)%Z.
Proof. apply hasEncodingIssues_true_iff. Qed.

Lemma C4_hasEncodingIssues_iff_witness :
  hasEncodingIssues [0x61; 0x85]%Z = true.
Proof.
  apply (C4_hasEncodingIssues_iff [0x61; 0x85]%Z).
  exists 0x85%Z. split; [simpl; tauto | lia].
Defined.

(** ** The repair engine *)

Section Repair.

Variable D : TextDecoders.

Lemma accept_Some (decoded : option (list Z)) (d : list Z) :
  accept decoded = Some d ->
  decoded = Some d /\ JS.truthy d = true /\ hasEncodingIssues d = false.
Proof.
  unfold accept. destruct decoded as [x|]; [|discriminate].
  destruct (JS.truthy x) eqn:Et; [|discriminate].
  destruct (hasEncodingIssues x) eqn:Eh; [discriminate|].
  simpl. intros [= <-]. auto.
Qed.

(** Every [wasFixed: true] result went through the guard. *)
Lemma fixed_is_clean (filename fixed : list Z) :
  fixFilenameEncoding D filename = (fixed, true) ->
  JS.truthy fixed = true /\ hasEncodingIssues fixed = false.
Proof.
  unfold fixFilenameEncoding.
  repeat match goal with
         | |- context [if ?b then _ else _] => destruct b
         | |- context [match accept ?x with _ => _ end] =>
             let E := fresh "E" in destruct (accept x) eqn:E
         end;
    intros [= <-]; eapply accept_Some; eassumption.
Qed.

(** A [wasFixed: false] result carries the input. *)
Lemma unfixed_is_input (filename fixed : list Z) :
  fixFilenameEncoding D filename = (fixed, false) -> fixed = filename.
Proof.
  unfold fixFilenameEncoding.
  repeat match goal with
         | |- context [if ?b then _ else _] => destruct b
         | |- context [match accept ?x with _ => _ end] => destruct (accept x)
         end;
    intros [= <-]; reflexivity.
Qed.

(** A clean name is left alone unless it is a byte string with a
    lead/trail pair that the Korean decoder accepts. *)
Lemma clean_name_unfixed (x : list Z) :
  hasEncodingIssues x = false ->
  isByteString x = false
  \/ isLikelyEUCKR (JS.Uint8Array x) = false
  \/ accept (tryDecodeEUCKR D (JS.Uint8Array x)) = None ->
  fixFilenameEncoding D x = (x, false).
Proof.
  intros Hc H. unfold fixFilenameEncoding. rewrite Hc. simpl.
  destruct (isByteString x); simpl; [|reflexivity].
  destruct (isLikelyEUCKR (JS.Uint8Array x)); [|reflexivity].
  destruct H as [H|[H|H]]; try discriminate H.
  rewrite H. reflexivity.
Qed.

End Repair.

(** C2: a string that is not byte-representable is returned unchanged with
    [wasFixed = false]. *)
Theorem C2_repair_keeps_unicode (D : TextDecoders) (S : list Z) :
  isByteString S = false -> fixFilenameEncoding D S = (S, false).
Proof. intros H. unfold fixFilenameEncoding. rewrite H. reflexivity. Qed.

Lemma C2_repair_keeps_unicode_witness :
  isByteString [0xD55C; 0xAE00; 0x2E; 0x74]%Z = false
  /\ fixFilenameEncoding Encoding.sample [0xD55C; 0xAE00; 0x2E; 0x74]%Z
     = ([0xD55C; 0xAE00; 0x2E; 0x74]%Z, false).
Proof.
  split; [reflexivity|].
  apply (C2_repair_keeps_unicode Encoding.sample [0xD55C; 0xAE00; 0x2E; 0x74]%Z).
  reflexivity.
Defined.

(** C3, as stated, fails.  The name with code units A1 BF A1 BF is clean
    and byte-representable; EUC-KR decodes its bytes to D7 D7 (two
    multiplication signs), a name that is again clean, byte-representable
    and a valid EUC-KR pair, so a second repair turns it into U+5229. *)
Lemma C3_repair_not_idempotent :
  let P := [0xA1; 0xBF; 0xA1; 0xBF]%Z in
  let once := fixFilenameEncoding Encoding.sample P in
  once = ([0xD7; 0xD7]%Z, true)
  /\ fixFilenameEncoding Encoding.sample once.1 = ([0x5229%Z], true)
  /\ fixFilenameEncoding Encoding.sample once.1 <> (once.1, false).
Proof. vm_compute. repeat split; discriminate. Qed.

(** C3 (amended): repair is a fixed point at every path whose repaired
    name is not again a byte-representable string with a lead/trail byte
    pair that the Korean decoder accepts; in particular whenever nothing
    was fixed, and whenever the repaired name has a code unit above 0xFF. *)
Theorem C3_repair_idempotent_unless_redecodable (D : TextDecoders) (P : list Z) :
  (fixFilenameEncoding D P).2 = false
  \/ isByteString (fixFilenameEncoding D P).1 = false
  \/ isLikelyEUCKR (JS.Uint8Array (fixFilenameEncoding D P).1) = false
  \/ accept (tryDecodeEUCKR D (JS.Uint8Array (fixFilenameEncoding D P).1)) = None ->
  fixFilenameEncoding D (fixFilenameEncoding D P).1
  = ((fixFilenameEncoding D P).1, false).
Proof.
  destruct (fixFilenameEncoding D P) as [fixed wasFixed] eqn:E. simpl.
  destruct wasFixed.
  - intros [H|H]; [discriminate H|].
    apply clean_name_unfixed; [|exact H].
    apply (fixed_is_clean D P), E.
  - intros _. assert (fixed = P) as -> by exact (unfixed_is_input D P fixed E).
    exact E.
Qed.

Lemma C3_repair_idempotent_unless_redecodable_witness :
  let P := [0xC7; 0xD1; 0xB1; 0xDB; 0x2E; 0x74]%Z in
  fixFilenameEncoding Encoding.sample P = ([0xD55C; 0xAE00; 0x2E; 0x74]%Z, true)
  /\ fixFilenameEncoding Encoding.sample (fixFilenameEncoding Encoding.sample P).1
     = ((fixFilenameEncoding Encoding.sample P).1, false).
Proof.
  split; [reflexivity|].
  apply (C3_repair_idempotent_unless_redecodable Encoding.sample).
  right; left. reflexivity.
Defined.

(** ** The two loops *)

Lemma fold_left_invariant {A B} (f : A -> B -> A) (P : A -> Prop) (l : list B) :
  forall a, P a -> (forall a x, In x l -> P a -> P (f a x)) -> P (fold_left f l a).
Proof.
  induction l as [|x l IH]; intros a Ha Hstep; simpl; [exact Ha|].
  apply IH.
  - apply Hstep; [left; reflexivity | exact Ha].
  - intros a' y Hy. apply Hstep. right. exact Hy.
Qed.

Lemma In_push {A} (x y : A) (l : list A) : In x (l ++ [y]) -> In x l \/ x = y.
Proof. rewrite in_app_iff. simpl. intuition. Qed.

(** Case analysis on one iteration of either loop: the repair result
    first, then the conditions from the outside in. *)
Ltac loop_cases :=
  repeat match goal with
         | |- context [fixFilenameEncoding ?D ?p] =>
             let E := fresh "Efix" in
             destruct (fixFilenameEncoding D p) as [? []] eqn:E
         | |- context [if ?b && ?c then _ else _] =>
             let E := fresh "E" in destruct b eqn:E; cbn [andb]
         | |- context [if ?b then _ else _] =>
             let E := fresh "E" in destruct b eqn:E
         end.

Section Loops.

Variable D : TextDecoders.



(** *** Counters and issues *)

Lemma count_push (k : IssueType) (i : DiagnosticIssue) (l : list DiagnosticIssue) :
  Spec.count k (l ++ [i]) = Spec.count k l + (if decide (type i = k) then 1 else 0).
Proof.
  unfold Spec.count. rewrite filter_app, length_app. f_equal.
  rewrite filter_cons, filter_nil. destruct (decide (type i = k)); reflexivity.
Qed.

Lemma analyzeEntry_counts (st : L.locals) (kv : list Z * ZipEntry) :
  (forall k, Spec.count k (L.issues st) = countersOf st k) ->
  forall k, Spec.count k (L.issues (analyzeEntry D st kv)) = countersOf (analyzeEntry D st kv) k.
Proof.
  intros H k. unfold analyzeEntry. destruct kv as [path zipEntry].
  pose proof (H encoding). pose proof (H macos_artifact).
  pose proof (H ds_store). pose proof (H hidden_file).
  loop_cases; simpl; rewrite ?count_push; destruct k; simpl in *; lia.
Qed.

Lemma processEntry_counts opts (st : L.locals) (kv : list Z * ZipEntry) :
  (forall k, Spec.count k (L.issues st) = reportedOf opts st k) ->
  forall k, Spec.count k (L.issues (processEntry D opts st kv))
            = reportedOf opts (processEntry D opts st kv) k.
Proof.
  intros H k. unfold processEntry. destruct kv as [path zipEntry].
  pose proof (H encoding). pose proof (H macos_artifact).
  pose proof (H ds_store). pose proof (H hidden_file).
  destruct opts as [rm rd rh fe]. unfold reportedOf in *. cbn [removeMAcOSArtifacts
    removeDSStore removeHiddenFiles fixEncoding] in *.
  loop_cases; cbn [L.issues L.macosArtifacts L.dsStoreFiles L.encodingIssues
    L.hiddenFiles L.push L.copy L.incTotalFiles L.incMacosArtifacts L.incDsStoreFiles
    L.incEncodingIssues L.incHiddenFiles fst snd];
    rewrite ?count_push; destruct k; simpl in *; subst; simpl in *; lia.
Qed.

(** *** Classification precedence *)

Lemma fold_left_counter_le {A B} (f : A -> B -> A) (c : A -> nat) (w : B -> bool) :
  (forall a x, c (f a x) <= c a + (if w x then 1 else 0)) ->
  forall l a, c (fold_left f l a) <= c a + length (List.filter w l).
Proof.
  intros Hstep l. induction l as [|x l IH]; intros a; simpl; [lia|].
  specialize (IH (f a x)). specialize (Hstep a x).
  destruct (w x); simpl; lia.
Qed.

Lemma fold_left_counter_eq {A B} (f : A -> B -> A) (c : A -> nat) (w : B -> bool) :
  (forall a x, c (f a x) = c a + (if w x then 1 else 0)) ->
  forall l a, c (fold_left f l a) = c a + length (List.filter w l).
Proof.
  intros Hstep l. induction l as [|x l IH]; intros a; simpl; [lia|].
  specialize (IH (f a x)). specialize (Hstep a x).
  destruct (w x); simpl; lia.
Qed.

Ltac locals_simpl :=
  cbn [L.issues L.macosArtifacts L.dsStoreFiles L.encodingIssues L.hiddenFiles
       L.totalFiles L.targetZip L.processedFiles L.push L.copy L.incTotalFiles
       L.incMacosArtifacts L.incDsStoreFiles L.incEncodingIssues L.incHiddenFiles
       fst snd negb andb].

Lemma analyzeEntry_macos (st : L.locals) (kv : list Z * ZipEntry) :
  L.macosArtifacts (analyzeEntry D st kv)
  = L.macosArtifacts st + (if negb (dir kv.2) && isMacOSArtifact kv.1 then 1 else 0).
Proof.
  unfold analyzeEntry. destruct kv as [path zipEntry]. cbn [fst snd].
  destruct (dir zipEntry), (isMacOSArtifact path); locals_simpl; try lia;
    loop_cases; locals_simpl; lia.
Qed.

Lemma analyzeEntry_hidden (st : L.locals) (kv : list Z * ZipEntry) :
  L.hiddenFiles (analyzeEntry D st kv)
  <= L.hiddenFiles st + (if negb (dir kv.2) && hiddenOutsideArtifact kv.1 then 1 else 0).
Proof.
  unfold analyzeEntry, hiddenOutsideArtifact. destruct kv as [path zipEntry]. cbn [fst snd].
  destruct (dir zipEntry), (isMacOSArtifact path), (isHiddenFile path);
    locals_simpl; try lia; loop_cases; locals_simpl; lia.
Qed.

Lemma analyzeEntry_hidden_issues (st : L.locals) (kv : list Z * ZipEntry) :
  hiddenIssuesOutsideArtifacts (L.issues st) ->
  hiddenIssuesOutsideArtifacts (L.issues (analyzeEntry D st kv)).
Proof.
  unfold hiddenIssuesOutsideArtifacts, analyzeEntry. intros H.
  destruct kv as [path zipEntry].
  destruct (dir zipEntry); [exact H|].
  destruct (isMacOSArtifact path) eqn:Em;
    loop_cases; locals_simpl; intros i Hi Ht;
    repeat (apply In_push in Hi; destruct Hi as [Hi| ->]);
    try (apply H; assumption); try discriminate Ht; exact Em.
Qed.

Lemma processEntry_macos opts (st : L.locals) (kv : list Z * ZipEntry) :
  L.macosArtifacts (processEntry D opts st kv)
  = L.macosArtifacts st + (if negb (dir kv.2) && isMacOSArtifact kv.1 then 1 else 0).
Proof.
  unfold processEntry. destruct kv as [path zipEntry]. cbn [fst snd].
  destruct (dir zipEntry), (isMacOSArtifact path); locals_simpl; try lia;
    loop_cases; locals_simpl; lia.
Qed.

Lemma processEntry_hidden opts (st : L.locals) (kv : list Z * ZipEntry) :
  removeMAcOSArtifacts opts = true ->
  L.hiddenFiles (processEntry D opts st kv)
  <= L.hiddenFiles st + (if negb (dir kv.2) && hiddenOutsideArtifact kv.1 then 1 else 0).
Proof.
  intros Hr. unfold processEntry, hiddenOutsideArtifact. rewrite Hr.
  destruct kv as [path zipEntry]. cbn [fst snd].
  destruct (dir zipEntry), (isMacOSArtifact path), (isHiddenFile path);
    locals_simpl; try lia; loop_cases; locals_simpl; lia.
Qed.

Lemma processEntry_hidden_issues opts (st : L.locals) (kv : list Z * ZipEntry) :
  removeMAcOSArtifacts opts = true ->
  hiddenIssuesOutsideArtifacts (L.issues st) ->
  hiddenIssuesOutsideArtifacts (L.issues (processEntry D opts st kv)).
Proof.
  unfold hiddenIssuesOutsideArtifacts, processEntry. intros Hr H. rewrite Hr.
  destruct kv as [path zipEntry].
  destruct (dir zipEntry); [exact H|].
  destruct (isMacOSArtifact path) eqn:Em;
    loop_cases; locals_simpl; intros i Hi Ht;
    repeat (apply In_push in Hi; destruct Hi as [Hi| ->]);
    try (apply H; assumption); try discriminate Ht; exact Em.
Qed.

Lemma processEntry_dsStore opts (st : L.locals) (kv : list Z * ZipEntry) :
  L.dsStoreFiles (processEntry D opts st kv)
  = L.dsStoreFiles st + (if negb (dir kv.2) && countedDSStore opts kv.1 then 1 else 0).
Proof.
  unfold processEntry, countedDSStore. destruct kv as [path zipEntry]. cbn [fst snd].
  destruct (dir zipEntry), (isMacOSArtifact path), (isDSStore path),
    (removeMAcOSArtifacts opts); locals_simpl; try lia; loop_cases; locals_simpl; lia.
Qed.

Lemma processEntry_hiddenFiles opts (st : L.locals) (kv : list Z * ZipEntry) :
  L.hiddenFiles (processEntry D opts st kv)
  = L.hiddenFiles st + (if negb (dir kv.2) && countedHidden opts kv.1 then 1 else 0).
Proof.
  unfold processEntry, countedHidden. destruct kv as [path zipEntry]. cbn [fst snd].
  destruct (dir zipEntry), (isMacOSArtifact path), (isDSStore path), (isHiddenFile path),
    (removeMAcOSArtifacts opts), (removeDSStore opts);
    locals_simpl; try lia; loop_cases; locals_simpl; lia.
Qed.

(** What the three clutter counters of [processZip] count, under every
    option. *)
Lemma processZip_clutter_counters (contents : list (list Z * ZipEntry))
    (options : PartialOptions) :
  let q := (processZip D contents options).2 in
  macosArtifacts q = countFiles isMacOSArtifact contents
  /\ dsStoreFiles q = countFiles (countedDSStore (mergeOptions options)) contents
  /\ hiddenFiles q = countFiles (countedHidden (mergeOptions options)) contents.
Proof.
  cbv zeta. unfold processZip, report, countFiles.
  cbn [snd macosArtifacts dsStoreFiles hiddenFiles]. repeat split.
  - apply (fold_left_counter_eq (processEntry D (mergeOptions options)) L.macosArtifacts
             (fun kv => negb (dir kv.2) && isMacOSArtifact kv.1)
             (processEntry_macos (mergeOptions options)) contents L.init).
  - apply (fold_left_counter_eq (processEntry D (mergeOptions options)) L.dsStoreFiles
             (fun kv => negb (dir kv.2) && countedDSStore (mergeOptions options) kv.1)
             (processEntry_dsStore (mergeOptions options)) contents L.init).
  - apply (fold_left_counter_eq (processEntry D (mergeOptions options)) L.hiddenFiles
             (fun kv => negb (dir kv.2) && countedHidden (mergeOptions options) kv.1)
             (processEntry_hiddenFiles (mergeOptions options)) contents L.init).
Qed.

(** *** Payloads *)

Lemma processEntry_payloads opts contents (st : L.locals) (kv : list Z * ZipEntry) :
  In kv contents ->
  payloadsFrom D opts contents (L.targetZip st) ->
  payloadsFrom D opts contents (L.targetZip (processEntry D opts st kv)).
Proof.
  unfold payloadsFrom, processEntry. intros Hin H. destruct kv as [path zipEntry].
  destruct (dir zipEntry) eqn:Ed; [exact H|].
  loop_cases; locals_simpl; try exact H;
    intros name data Hl; apply lookup_insert_Some in Hl;
    (destruct Hl as [[<- <-]|[_ Hl]]; [|apply H; exact Hl]);
    exists path, zipEntry; repeat split; auto.
Qed.

End Loops.



(** ** Reports *)

(** C1, as stated, fails for [processZip]: under the default options a
    hidden file is counted and kept, and no issue is recorded for it. *)
Lemma C1_processZip_counts_kept_hidden_file :
  let contents := [(lit ".gitignore", {| dir := false; content := [0x2A%Z] |})] in
  let r := (processZip Encoding.sample contents
              {| p_removeMAcOSArtifacts := None; p_removeDSStore := None;
                 p_removeHiddenFiles := None; p_fixEncoding := None |}).2 in
  hiddenFiles r = 1 /\ Spec.count hidden_file (issues r) = 0
  /\ hiddenFiles r <> Spec.count hidden_file (issues r).
Proof. vm_compute. repeat split; discriminate. Qed.

(** C1 (amended): in every report of [analyzeZip] each of the four counters
    is the number of issues of its kind.  In every report of [processZip]
    the encoding counter is the number of encoding issues, and each of the
    other three counters is the number of issues of its kind when the
    option that removes that kind is on; when it is off the report has no
    issue of that kind.  Whatever the options, each of these three
    counters is the number of file entries that match the pattern of its
    kind and were not dropped by an earlier check (metadata artifact
    before settings file before hidden file). *)
Theorem C1_counters_and_issues (D : TextDecoders) (contents : list (list Z * ZipEntry))
    (options : PartialOptions) :
  let r := analyzeZip D contents in
  let q := (processZip D contents options).2 in
  let opts := mergeOptions options in
  (Spec.count encoding (issues r) = encodingIssues r
   /\ Spec.count macos_artifact (issues r) = macosArtifacts r
   /\ Spec.count ds_store (issues r) = dsStoreFiles r
   /\ Spec.count hidden_file (issues r) = hiddenFiles r)
  /\ (Spec.count encoding (issues q) = encodingIssues q
      /\ Spec.count macos_artifact (issues q)
         = (if removeMAcOSArtifacts opts then macosArtifacts q else 0)
      /\ Spec.count ds_store (issues q)
         = (if removeDSStore opts then dsStoreFiles q else 0)
      /\ Spec.count hidden_file (issues q)
         = (if removeHiddenFiles opts then hiddenFiles q else 0))
  /\ (macosArtifacts q = countFiles isMacOSArtifact contents
      /\ dsStoreFiles q = countFiles (countedDSStore opts) contents
      /\ hiddenFiles q = countFiles (countedHidden opts) contents).
Proof.
  cbv zeta. split; [|split; [|apply (processZip_clutter_counters D contents options)]].
  - assert (H : forall k, Spec.count k (L.issues (fold_left (analyzeEntry D) contents L.init))
                          = countersOf (fold_left (analyzeEntry D) contents L.init) k).
    { apply (fold_left_invariant (analyzeEntry D)
               (fun st => forall k, Spec.count k (L.issues st) = countersOf st k)).
      - intros []; reflexivity.
      - intros st kv _. apply analyzeEntry_counts. }
    unfold analyzeZip, report. cbn [issues encodingIssues macosArtifacts dsStoreFiles hiddenFiles].
    repeat split; [apply (H encoding) | apply (H macos_artifact)
                   | apply (H ds_store) | apply (H hidden_file)].
  - set (opts := mergeOptions options).
    assert (H : forall k,
               Spec.count k (L.issues (fold_left (processEntry D opts) contents L.init))
               = reportedOf opts (fold_left (processEntry D opts) contents L.init) k).
    { apply (fold_left_invariant (processEntry D opts)
               (fun st => forall k, Spec.count k (L.issues st) = reportedOf opts st k)).
      - intros []; simpl; repeat match goal with |- context [if ?b then _ else _] =>
                                                   destruct b end; reflexivity.
      - intros st kv _. apply processEntry_counts. }
    unfold processZip, report.
    cbn [snd issues encodingIssues macosArtifacts dsStoreFiles hiddenFiles].
    fold opts.
    repeat split; [apply (H encoding) | apply (H macos_artifact)
                   | apply (H ds_store) | apply (H hidden_file)].
Qed.

Lemma calcConfidence_spec (m d e : nat) :
  calcConfidence m d e = Spec.confidence m d e.
Proof.
  unfold calcConfidence, Spec.confidence.
  destruct ((0 <? m) || (0 <? d)); destruct (Nat.ltb_spec 0 e); lia.
Qed.

Lemma confidence_monotone (m d e m' d' e' : nat) :
  e <= e' -> (0 < m \/ 0 < d -> 0 < m' \/ 0 < d') ->
  Spec.confidence m d e <= Spec.confidence m' d' e'.
Proof.
  intros He Hs. unfold Spec.confidence.
  destruct (Nat.ltb_spec 0 m), (Nat.ltb_spec 0 d), (Nat.ltb_spec 0 m'),
    (Nat.ltb_spec 0 d'); cbn [orb]; lia.
Qed.

(** C5: in every report the confidence is the stated formula of the three
    counters; the formula lies in [0, 100] and does not decrease when the
    encoding count grows or when a platform signal appears. *)
Theorem C5_confidence_formula (D : TextDecoders) (contents : list (list Z * ZipEntry))
    (options : PartialOptions) :
  let r := analyzeZip D contents in
  let q := (processZip D contents options).2 in
  encodingConfidence r
    = Spec.confidence (macosArtifacts r) (dsStoreFiles r) (encodingIssues r)
  /\ encodingConfidence q
     = Spec.confidence (macosArtifacts q) (dsStoreFiles q) (encodingIssues q)
  /\ 0 <= encodingConfidence r <= 100
  /\ 0 <= encodingConfidence q <= 100
  /\ (forall m d e m' d' e' : nat,
        e <= e' -> (0 < m \/ 0 < d -> 0 < m' \/ 0 < d') ->
        calcConfidence m d e <= calcConfidence m' d' e').
Proof.
  cbv zeta. unfold analyzeZip, processZip, report.
  cbn [snd encodingConfidence macosArtifacts dsStoreFiles encodingIssues].
  repeat split; try apply calcConfidence_spec; try lia;
    try (rewrite calcConfidence_spec; unfold Spec.confidence; lia).
  intros m d e m' d' e' He Hs. rewrite !calcConfidence_spec.
  apply confidence_monotone; assumption.
Qed.

(** The reports of [createZipFromFiles] are outside that statement: their
    confidence is the constant 0, whatever was counted. *)
Lemma createZipFromFiles_confidence (files : list HostFile) (options : PartialOptions) :
  encodingConfidence (createZipFromFiles files options).2 = 0.
Proof. reflexivity. Qed.

Lemma C5_confidence_formula_witness :
  calcConfidence 0 0 1 <= calcConfidence 0 3 2
  /\ calcConfidence 0 3 2 = 70.
Proof.
  split; [|reflexivity].
  apply (C5_confidence_formula Encoding.sample [] 
           {| p_removeMAcOSArtifacts := None; p_removeDSStore := None;
              p_removeHiddenFiles := None; p_fixEncoding := None |}); lia.
Defined.

(** C6, as stated, fails for [processZip]: when metadata artifacts are not
    being removed, an artifact whose path has a dot segment goes on to the
    hidden-file check and is counted there as well. *)
Lemma C6_kept_artifact_counted_hidden :
  let path := lit "__MACOSX/._doc.txt" in
  let contents := [(path, {| dir := false; content := [0x2A%Z] |})] in
  let r := (processZip Encoding.sample contents
              {| p_removeMAcOSArtifacts := Some false; p_removeDSStore := None;
                 p_removeHiddenFiles := None; p_fixEncoding := None |}).2 in
  isMacOSArtifact path = true /\ isHiddenFile path = true
  /\ macosArtifacts r = 1 /\ hiddenFiles r = 1
  /\ ~ hiddenFiles r <= countFiles hiddenOutsideArtifact contents.
Proof. vm_compute. repeat split; lia. Qed.

(** C6 (amended): in every report of [analyzeZip], and in every report of
    [processZip] run with [removeMAcOSArtifacts] on, every file entry that
    matches the metadata-artifact pattern is counted as a metadata
    artifact, only hidden paths outside the metadata folders are counted
    as hidden files, and no hidden-file issue names a metadata artifact.
    In a report of [processZip] run with [removeMAcOSArtifacts] off, the
    metadata artifacts are counted as such all the same, and the hidden
    counter counts every file entry with a hidden path, metadata
    artifacts included, except those that the settings-file check drops
    first (the path passes [isDSStore] and [removeDSStore] is on). *)
Theorem C6_artifact_never_hidden (D : TextDecoders) (contents : list (list Z * ZipEntry))
    (options : PartialOptions) :
  let r := analyzeZip D contents in
  let q := (processZip D contents options).2 in
  (macosArtifacts r = countFiles isMacOSArtifact contents
   /\ hiddenFiles r <= countFiles hiddenOutsideArtifact contents
   /\ hiddenIssuesOutsideArtifacts (issues r))
  /\ (removeMAcOSArtifacts (mergeOptions options) = true ->
      macosArtifacts q = countFiles isMacOSArtifact contents
      /\ hiddenFiles q <= countFiles hiddenOutsideArtifact contents
      /\ hiddenIssuesOutsideArtifacts (issues q))
  /\ (removeMAcOSArtifacts (mergeOptions options) = false ->
      macosArtifacts q = countFiles isMacOSArtifact contents
      /\ hiddenFiles q
         = countFiles
             (fun path => isHiddenFile path
                          && negb (isDSStore path && removeDSStore (mergeOptions options)))
             contents).
Proof.
  cbv zeta. split; [|split].
  - unfold analyzeZip, report, countFiles.
    cbn [snd macosArtifacts hiddenFiles issues]. repeat split.
    + apply (fold_left_counter_eq (analyzeEntry D) L.macosArtifacts
               (fun kv => negb (dir kv.2) && isMacOSArtifact kv.1)
               (analyzeEntry_macos D) contents L.init).
    + apply (fold_left_counter_le (analyzeEntry D) L.hiddenFiles
               (fun kv => negb (dir kv.2) && hiddenOutsideArtifact kv.1)
               (analyzeEntry_hidden D) contents L.init).
    + apply (fold_left_invariant (analyzeEntry D)
               (fun st => hiddenIssuesOutsideArtifacts (L.issues st))).
      * intros i [].
      * intros st kv _. apply analyzeEntry_hidden_issues.
  - intros Hr. unfold processZip, report, countFiles.
    cbn [snd macosArtifacts hiddenFiles issues]. repeat split.
    + apply (fold_left_counter_eq (processEntry D (mergeOptions options)) L.macosArtifacts
               (fun kv => negb (dir kv.2) && isMacOSArtifact kv.1)
               (processEntry_macos D (mergeOptions options)) contents L.init).
    + apply (fold_left_counter_le (processEntry D (mergeOptions options)) L.hiddenFiles
               (fun kv => negb (dir kv.2) && hiddenOutsideArtifact kv.1)
               (fun st kv => processEntry_hidden D (mergeOptions options) st kv Hr)
               contents L.init).
    + apply (fold_left_invariant (processEntry D (mergeOptions options))
               (fun st => hiddenIssuesOutsideArtifacts (L.issues st))).
      * intros i [].
      * intros st kv _. apply processEntry_hidden_issues, Hr.
  - intros Hr.
    destruct (processZip_clutter_counters D contents options) as (Hm & _ & Hh).
    split; [exact Hm|]. rewrite Hh. unfold countFiles. f_equal.
    apply filter_ext. intros [path e]. cbn [fst snd]. unfold countedHidden.
    rewrite Hr, andb_false_r. cbn [negb]. rewrite andb_true_r. reflexivity.
Qed.

Lemma C6_artifact_never_hidden_witness :
  let contents :=
    [(lit "__MACOSX/._doc.txt", {| dir := false; content := [0x2A%Z] |});
     (lit "__MACOSX/._.DS_Store", {| dir := false; content := [] |});
     (lit ".gitignore", {| dir := false; content := [] |})] in
  let none := {| p_removeMAcOSArtifacts := None; p_removeDSStore := None;
                 p_removeHiddenFiles := None; p_fixEncoding := None |} in
  let keep := {| p_removeMAcOSArtifacts := Some false; p_removeDSStore := None;
                 p_removeHiddenFiles := None; p_fixEncoding := None |} in
  (hiddenFiles (processZip Encoding.sample contents none).2 = 1
   /\ hiddenFiles (processZip Encoding.sample contents none).2
      <= countFiles hiddenOutsideArtifact contents)
  /\ (hiddenFiles (processZip Encoding.sample contents keep).2 = 2
      /\ hiddenFiles (processZip Encoding.sample contents keep).2
         = countFiles
             (fun path => isHiddenFile path
                          && negb (isDSStore path && removeDSStore (mergeOptions keep)))
             contents).
Proof.
  cbv zeta.
  pose proof (C6_artifact_never_hidden Encoding.sample
    [(lit "__MACOSX/._doc.txt", {| dir := false; content := [0x2A%Z] |});
     (lit "__MACOSX/._.DS_Store", {| dir := false; content := [] |});
     (lit ".gitignore", {| dir := false; content := [] |})]
    {| p_removeMAcOSArtifacts := None; p_removeDSStore := None;
       p_removeHiddenFiles := None; p_fixEncoding := None |}) as H1.
  pose proof (C6_artifact_never_hidden Encoding.sample
    [(lit "__MACOSX/._doc.txt", {| dir := false; content := [0x2A%Z] |});
     (lit "__MACOSX/._.DS_Store", {| dir := false; content := [] |});
     (lit ".gitignore", {| dir := false; content := [] |})]
    {| p_removeMAcOSArtifacts := Some false; p_removeDSStore := None;
       p_removeHiddenFiles := None; p_fixEncoding := None |}) as H2.
  cbv zeta in H1, H2.
  destruct H1 as (_ & H1 & _). destruct H2 as (_ & _ & H2).
  split; (split; [reflexivity|]).
  - apply (H1 eq_refl).
  - apply (H2 eq_refl).
Defined.

(** C9: every payload of the archive that [processZip] builds is, byte for
    byte, the payload of a file entry of the source archive, stored under
    that entry's path or, when [fixEncoding] is on, under its repaired
    path. *)
Theorem C9_payload_preserved (D : TextDecoders) (contents : list (list Z * ZipEntry))
    (options : PartialOptions) (name data : list Z) :
  (processZip D contents options).1 !! name = Some data ->
  exists path zipEntry,
    In (path, zipEntry) contents /\ dir zipEntry = false
    /\ content zipEntry = data
    /\ (name = path
        \/ (fixEncoding (mergeOptions options) = true
            /\ fixFilenameEncoding D path = (name, true))).
Proof.
  unfold processZip. cbn [fst].
  revert name data.
  change (payloadsFrom D (mergeOptions options) contents
            (L.targetZip (fold_left (processEntry D (mergeOptions options)) contents L.init))).
  apply (fold_left_invariant (processEntry D (mergeOptions options))
           (fun st => payloadsFrom D (mergeOptions options) contents (L.targetZip st))).
  - intros name data Hl. cbn [L.targetZip L.init] in Hl.
    rewrite lookup_empty in Hl. discriminate Hl.
  - intros st kv Hin. apply processEntry_payloads, Hin.
Qed.

Lemma C9_payload_preserved_witness :
  let contents :=
    [(lit "readme.txt", {| dir := false; content := [0x68; 0x69]%Z |});
     ([0x85%Z], {| dir := false; content := [0x2A%Z] |})] in
  let none := {| p_removeMAcOSArtifacts := None; p_removeDSStore := None;
                 p_removeHiddenFiles := None; p_fixEncoding := None |} in
  (processZip Encoding.sample contents none).1 !! [0xD61A%Z] = Some [0x2A%Z]
  /\ exists path zipEntry,
       In (path, zipEntry) contents /\ dir zipEntry = false
       /\ content zipEntry = [0x2A%Z]
       /\ ([0xD61A%Z] = path
           \/ (fixEncoding (mergeOptions none) = true
               /\ fixFilenameEncoding Encoding.sample path = ([0xD61A%Z], true))).
Proof.
  cbv zeta.
  assert (H : (processZip Encoding.sample
                 [(lit "readme.txt", {| dir := false; content := [0x68; 0x69]%Z |});
                  ([0x85%Z], {| dir := false; content := [0x2A%Z] |})]
                 {| p_removeMAcOSArtifacts := None; p_removeDSStore := None;
                    p_removeHiddenFiles := None; p_fixEncoding := None |}).1
              !! [0xD61A%Z] = Some [0x2A%Z]) by (vm_compute; reflexivity).
  split; [exact H|].
  exact (C9_payload_preserved Encoding.sample _ _ _ _ H).
Defined.

(** ** The path classifier *)

(** [isDSStore] holds exactly of the paths that end with the text
    [.DS_Store] or contain the text [/.DS_Store] anywhere. *)
Lemma isDSStore_iff (path : list Z) :
  isDSStore path = true <->
  (exists a, path = a ++ lit ".DS_Store")
  \/ (exists a b, path = a ++ lit "/.DS_Store" ++ b).
Proof.
  unfold isDSStore. rewrite orb_true_iff, endsWith_iff, includes_iff. reflexivity.
Qed.

(** It holds of every path whose final segment is [.DS_Store]. *)
Lemma isDSStore_final_segment (path : list Z) :
  Spec.isSettingsFile path = true -> isDSStore path = true.
Proof.
  unfold Spec.isSettingsFile. rewrite bool_decide_eq_true. intros Hf.
  apply isDSStore_iff. left. rewrite <- Hf. apply path_ends_with_final_segment.
Qed.

(** C7 fails on the code: [isDSStore] is meant to hold if and only if the
    final path segment is [.DS_Store], and it also accepts [foo.DS_Store],
    whose final segment merely ends with the reserved name, and
    [a/.DS_Store/b], whose final segment is [b]. *)
Theorem C7_isDSStore_beyond_final_segment :
  (isDSStore (lit "foo.DS_Store") = true
   /\ Spec.finalSegment (lit "foo.DS_Store") = lit "foo.DS_Store"
   /\ Spec.isSettingsFile (lit "foo.DS_Store") = false)
  /\ (isDSStore (lit "a/.DS_Store/b") = true
      /\ Spec.finalSegment (lit "a/.DS_Store/b") = lit "b"
      /\ Spec.isSettingsFile (lit "a/.DS_Store/b") = false).
Proof. vm_compute. repeat split. Qed.

Lemma macosx_has_no_slash : ~ In 47%Z (lit "__MACOSX").
Proof. vm_compute. intuition discriminate. Qed.

(** C8: [isMacOSArtifact] holds exactly of the paths that have [__MACOSX]
    as their first directory component or as a later one, segments being
    compared exactly. *)
Theorem C8_isMacOSArtifact_iff (path : list Z) :
  isMacOSArtifact path = true <-> Spec.isMetadataArtifact path = true.
Proof.
  unfold isMacOSArtifact, Spec.isMetadataArtifact, Spec.directoryComponents, Spec.segments.
  rewrite !orb_true_iff, startsWith_iff, includes_iff, bool_decide_eq_true, existsb_exists.
  pose proof (in_directory_components 47 (lit "__MACOSX") path macosx_has_no_slash) as Hd.
  change (lit "__MACOSX/") with (lit "__MACOSX" ++ [47%Z]).
  change (lit "/__MACOSX/") with (47%Z :: lit "__MACOSX" ++ [47%Z]).
  assert (Hin : In (lit "__MACOSX") (removelast (JS.split 47 path)) <->
                (exists b, path = (lit "__MACOSX" ++ [47%Z]) ++ b)
                \/ (exists a b, path = a ++ (47%Z :: lit "__MACOSX" ++ [47%Z]) ++ b)).
  { rewrite Hd. split.
    - intros [[b ->] | (a & b & ->)]; [left; exists b | right; exists a, b];
        cbn [app]; rewrite <- ?app_assoc; reflexivity.
    - intros [[b ->] | (a & b & ->)]; [left; exists b | right; exists a, b];
        cbn [app]; rewrite <- ?app_assoc; reflexivity. }
  rewrite <- Hin. split.
  - intros H. right. exists (lit "__MACOSX"). split; [exact H|].
    apply bool_decide_eq_true. reflexivity.
  - intros [H | (seg & Hs & He)].
    + destruct (removelast (JS.split 47 path)) as [|x l]; [discriminate H|].
      injection H as ->. left. reflexivity.
    + apply bool_decide_eq_true in He. subst seg. exact Hs.
Qed.

Lemma C8_isMacOSArtifact_iff_witness :
  Spec.isMetadataArtifact (lit "photos/__MACOSX/._a.jpg") = true
  /\ isMacOSArtifact (lit "photos/__MACOSX/._a.jpg") = true.
Proof.
  split; [reflexivity|].
  apply (C8_isMacOSArtifact_iff (lit "photos/__MACOSX/._a.jpg")). reflexivity.
Defined.

(** * Further properties of the engine *)

(** ** The lead/trail scan *)

Lemma eucKrPairs_cons2 (b1 b2 : Z) (rest : list Z) :
  eucKrPairs (b1 :: b2 :: rest)
  = if leadByte b1 && trailByte b2 then S (eucKrPairs rest) else eucKrPairs (b2 :: rest).
Proof. unfold leadByte, trailByte. cbn [eucKrPairs]. rewrite andb_assoc. reflexivity. Qed.

Lemma eucKrPairs_found (a : list Z) (b1 b2 : Z) (c : list Z) :
  leadByte b1 = true -> trailByte b2 = true ->
  0 < eucKrPairs (a ++ b1 :: b2 :: c).
Proof.
  intros H1 H2. induction a as [|x a IH].
  - cbn [app]. rewrite eucKrPairs_cons2, H1, H2. cbn. lia.
  - destruct a as [|y a]; cbn [app] in *; rewrite eucKrPairs_cons2;
      destruct (leadByte x && trailByte _); try lia; exact IH.
Qed.

Lemma eucKrPairs_pair (n : nat) :
  forall bs, length bs <= n -> 0 < eucKrPairs bs ->
  exists a b1 b2 c, bs = a ++ b1 :: b2 :: c /\ leadByte b1 = true /\ trailByte b2 = true.
Proof.
  induction n as [|n IH]; intros bs Hlen Hpos.
  - destruct bs; [cbn in Hpos; lia | cbn in Hlen; lia].
  - destruct bs as [|b1 [|b2 rest]]; [cbn in Hpos; lia | cbn in Hpos; lia |].
    rewrite eucKrPairs_cons2 in Hpos.
    destruct (leadByte b1 && trailByte b2) eqn:E.
    + apply andb_true_iff in E. exists [], b1, b2, rest. tauto.
    + destruct (IH (b2 :: rest)) as (a & x & y & c & Heq & Hx & Hy);
        [cbn in *; lia | exact Hpos |].
      exists (b1 :: a), x, y, c. rewrite <- app_comm_cons, <- Heq. tauto.
Qed.

(** X1: [isLikelyEUCKR] holds exactly when some two adjacent bytes are a lead
    byte followed by a trail byte; skipping the trail byte of a matched
    pair never hides a pair. *)
Theorem isLikelyEUCKR_iff (bs : list Z) :
  isLikelyEUCKR bs = true <->
  exists a b1 b2 c, bs = a ++ b1 :: b2 :: c
    /\ (0x81 <= b1 <= 0xFE)%Z /\ (0x41 <= b2 <= 0xFE)%Z.
Proof.
  unfold isLikelyEUCKR. rewrite Nat.ltb_lt. split.
  - intros H. destruct (eucKrPairs_pair (length bs) bs (le_n _) H)
      as (a & b1 & b2 & c & -> & H1 & H2).
    exists a, b1, b2, c. unfold leadByte, trailByte in *. split; [reflexivity|]. lia.
  - intros (a & b1 & b2 & c & -> & H1 & H2).
    apply eucKrPairs_found; unfold leadByte, trailByte; lia.
Qed.

Lemma isLikelyEUCKR_iff_witness :
  isLikelyEUCKR [0x61; 0xC7; 0xD1; 0x2E]%Z = true.
Proof.
  apply (isLikelyEUCKR_iff [0x61; 0xC7; 0xD1; 0x2E]%Z).
  exists [0x61%Z], 0xC7%Z, 0xD1%Z, [0x2E%Z]. split; [reflexivity | lia].
Defined.

Lemma eucKrPairs_no_lead (bs : list Z) :
  (forall b, In b bs -> leadByte b = false) -> eucKrPairs bs = 0.
Proof.
  intros H. destruct (eucKrPairs bs) eqn:E; [reflexivity|].
  destruct (eucKrPairs_pair (length bs) bs (le_n _)) as (a & b1 & b2 & c & -> & H1 & _);
    [lia|].
  rewrite H in H1; [discriminate H1|]. apply in_app_iff. right. left. reflexivity.
Qed.

(** ** What repair does and does not do *)

Section RepairFacts.

Variable D : TextDecoders.

Lemma ascii_unfixed (filename : list Z) :
  (forall c, In c filename -> (0 <= c < 0x80)%Z) ->
  fixFilenameEncoding D filename = (filename, false).
Proof.
  intros H. apply clean_name_unfixed.
  - destruct (hasEncodingIssues filename) eqn:E; [|reflexivity].
    apply hasEncodingIssues_true_iff in E. destruct E as (c & Hc & Hbad).
    specialize (H c Hc). lia.
  - right. left. unfold isLikelyEUCKR. rewrite eucKrPairs_no_lead; [reflexivity|].
    intros b Hb. unfold JS.Uint8Array in Hb. apply in_map_iff in Hb.
    destruct Hb as (c & <- & Hc). specialize (H c Hc).
    rewrite Z.mod_small by lia. unfold leadByte. lia.
Qed.

(** X2: a name made of ASCII code units is never altered, whatever the
    decoders answer. *)
Theorem ascii_name_unchanged (filename : list Z) :
  (forall c, In c filename -> (0 <= c < 0x80)%Z) ->
  fixFilenameEncoding D filename = (filename, false).
Proof. apply ascii_unfixed. Qed.

(** X3: a repaired name is always the answer of one of the decoders on the
    bytes of the name: the Korean decoder on the code units read as bytes
    when the name is clean, one of the three decoders on the UTF-8 bytes
    when it is damaged.  Repair never makes up a name. *)
Theorem fixed_name_provenance (filename fixed : list Z) :
  fixFilenameEncoding D filename = (fixed, true) ->
  isByteString filename = true
  /\ ((hasEncodingIssues filename = false
       /\ isLikelyEUCKR (JS.Uint8Array filename) = true
       /\ decode_euc_kr D (JS.Uint8Array filename) = Some fixed)
      \/ (hasEncodingIssues filename = true
          /\ (decode_euc_kr D (JS.TextEncoder_encode filename) = Some fixed
              \/ decode_shift_jis D (JS.TextEncoder_encode filename) = Some fixed
              \/ decode_gbk D (JS.TextEncoder_encode filename) = Some fixed))).
Proof.
  unfold fixFilenameEncoding, tryDecodeEUCKR, tryDecodeShiftJIS, tryDecodeGBK.
  destruct (isByteString filename); cbn [negb]; [|discriminate].
  destruct (hasEncodingIssues filename); cbn [negb].
  - repeat match goal with
           | |- context [match accept ?x with _ => _ end] =>
               let E := fresh "E" in destruct (accept x) eqn:E
           end;
      intros [= <-];
      repeat match goal with
             | H : accept _ = Some _ |- _ => apply accept_Some in H; destruct H as [H _]
             end; tauto.
  - destruct (isLikelyEUCKR _); [|discriminate].
    destruct (accept _) eqn:E; intros [= <-].
    apply accept_Some in E. destruct E as [E _]. tauto.
Qed.

(** X4: a name comes out empty only when it went in empty, and then it is
    not reported as fixed. *)
Theorem fixed_name_empty (filename : list Z) :
  (fixFilenameEncoding D filename).1 = [] ->
  filename = [] /\ (fixFilenameEncoding D filename).2 = false.
Proof.
  destruct (fixFilenameEncoding D filename) as [fixed wasFixed] eqn:E. cbn [fst snd].
  intros ->. destruct wasFixed.
  - apply fixed_is_clean in E. destruct E as [E _]. discriminate E.
  - apply unfixed_is_input in E. auto.
Qed.

End RepairFacts.

Lemma ascii_name_unchanged_witness :
  fixFilenameEncoding Encoding.sample (lit "notes.txt") = (lit "notes.txt", false).
Proof.
  apply (ascii_name_unchanged Encoding.sample (lit "notes.txt")).
  intros c Hc. vm_compute in Hc.
  repeat (destruct Hc as [<-|Hc]; [lia|]). destruct Hc.
Defined.

Lemma fixed_name_provenance_witness :
  decode_euc_kr Encoding.sample (JS.TextEncoder_encode [0x85%Z]) = Some [0xD61A%Z].
Proof.
  destruct (fixed_name_provenance Encoding.sample [0x85%Z] [0xD61A%Z] eq_refl)
    as [_ [[H _]|[_ [H|[H|H]]]]].
  - vm_compute in H. discriminate H.
  - exact H.
  - vm_compute in H. discriminate H.
  - vm_compute in H. discriminate H.
Defined.

Lemma fixed_name_empty_witness :
  (fixFilenameEncoding Encoding.sample []).1 = []
  /\ (@nil Z = [] /\ (fixFilenameEncoding Encoding.sample []).2 = false).
Proof.
  split; [reflexivity|]. apply (fixed_name_empty Encoding.sample []). reflexivity.
Defined.

(** X5: on a name the detector does not flag, only the Korean decoder is
    consulted: two sets of decoders with the same Korean decoder repair
    such a name alike. *)
Theorem clean_name_ignores_other_decoders (D D' : TextDecoders) (filename : list Z) :
  (forall bs, decode_euc_kr D bs = decode_euc_kr D' bs) ->
  hasEncodingIssues filename = false ->
  fixFilenameEncoding D filename = fixFilenameEncoding D' filename.
Proof.
  intros He Hc. unfold fixFilenameEncoding, tryDecodeEUCKR.
  rewrite Hc, He. reflexivity.
Qed.

Lemma clean_name_ignores_other_decoders_witness :
  fixFilenameEncoding Encoding.sample [0xC7; 0xD1]%Z
  = fixFilenameEncoding
      {| decode_euc_kr := decode_euc_kr Encoding.sample;
         decode_shift_jis := fun _ => None;
         decode_gbk := fun bs => Some bs |} [0xC7; 0xD1]%Z.
Proof.
  apply clean_name_ignores_other_decoders; [intros bs|]; reflexivity.
Defined.

(** ** The loops, entry by entry *)

Lemma fold_left_additive {A B M} (op : M -> M -> M) (f : A -> B -> A) (init : A)
    (m : A -> M) :
  (forall x y z, op x (op y z) = op (op x y) z) ->
  (forall x, op x (m init) = x) ->
  (forall a x, m (f a x) = op (m a) (m (f init x))) ->
  forall l a, m (fold_left f l a) = op (m a) (m (fold_left f l init)).
Proof.
  intros Hassoc Hid Hstep l. induction l as [|x l IH]; intros a; cbn [fold_left].
  - symmetry. apply Hid.
  - rewrite (IH (f a x)), (IH (f init x)), Hstep. symmetry. apply Hassoc.
Qed.

Lemma fold_left_related {A A' B} (f : A -> B -> A) (g : A' -> B -> A')
    (R : A -> A' -> Prop) (l : list B) :
  (forall a a' x, R a a' -> R (f a x) (g a' x)) ->
  forall a a', R a a' -> R (fold_left f l a) (fold_left g l a').
Proof.
  intros Hstep. induction l as [|x l IH]; intros a a' H; cbn [fold_left]; auto.
Qed.

Lemma fold_left_skip {A B} (f : A -> B -> A) (w : B -> bool) (l : list B) :
  (forall a x, w x = false -> f a x = a) ->
  forall a, fold_left f (List.filter w l) a = fold_left f l a.
Proof.
  intros Hskip. induction l as [|x l IH]; intros a; cbn [List.filter fold_left].
  - reflexivity.
  - destruct (w x) eqn:E; cbn [fold_left]; [apply IH|].
    rewrite (Hskip a x E). apply IH.
Qed.

Ltac locals_cbn :=
  cbn [L.issues L.macosArtifacts L.dsStoreFiles L.encodingIssues L.hiddenFiles
       L.totalFiles L.targetZip L.processedFiles L.push L.copy L.incTotalFiles
       L.incMacosArtifacts L.incDsStoreFiles L.incEncodingIssues L.incHiddenFiles
       L.init fst snd negb andb orb app].

(** The counters of a loop state, in the order macOS artifacts, settings
    files, encoding issues, hidden files, total. *)
Ltac tally_cases D path e :=
  destruct (dir e), (isMacOSArtifact path), (isDSStore path), (isHiddenFile path),
    (fixFilenameEncoding D path) as [? []].

Section LoopFacts.

Variable D : TextDecoders.

Lemma analyzeEntry_total (st : L.locals) (kv : list Z * ZipEntry) :
  L.totalFiles (analyzeEntry D st kv)
  = L.totalFiles st + (if negb (dir kv.2) && true then 1 else 0).
Proof.
  unfold analyzeEntry. destruct kv as [path e]. cbn [fst snd].
  tally_cases D path e; locals_cbn; lia.
Qed.

Lemma processEntry_total opts (st : L.locals) (kv : list Z * ZipEntry) :
  L.totalFiles (processEntry D opts st kv)
  = L.totalFiles st + (if negb (dir kv.2) && true then 1 else 0).
Proof.
  unfold processEntry. destruct kv as [path e], opts as [[] [] [] []].
  all: cbn [fst snd removeMAcOSArtifacts removeDSStore removeHiddenFiles fixEncoding].
  all: tally_cases D path e; locals_cbn; lia.
Qed.

Lemma addHostFile_total opts (st : L.locals) (file : HostFile) :
  L.totalFiles (addHostFile opts st file) = S (L.totalFiles st).
Proof.
  unfold addHostFile.
  destruct (isDSStore _), (isHiddenFile _), opts as [? [] [] ?]; locals_cbn;
    cbn [removeDSStore removeHiddenFiles]; locals_cbn; reflexivity.
Qed.

Lemma fold_addHostFile_total opts (files : list HostFile) :
  forall st, L.totalFiles (fold_left (addHostFile opts) files st)
             = L.totalFiles st + length files.
Proof.
  induction files as [|f files IH]; intros st; cbn [fold_left length]; [lia|].
  rewrite IH, addHostFile_total. lia.
Qed.

(** Where the payload of an entry goes. *)
Lemma processEntry_targetZip opts (st : L.locals) (path : list Z) (e : ZipEntry) :
  L.targetZip (processEntry D opts st (path, e))
  = if negb (dir e) && kept opts path
    then <[finalPathOf D opts path := content e]> (L.targetZip st)
    else L.targetZip st.
Proof.
  unfold processEntry, kept, finalPathOf. destruct opts as [[] [] [] []].
  all: cbn [removeMAcOSArtifacts removeDSStore removeHiddenFiles fixEncoding].
  all: tally_cases D path e; locals_cbn; reflexivity.
Qed.

Lemma analyzeEntry_additive (st : L.locals) (kv : list Z * ZipEntry) :
  let d := analyzeEntry D L.init kv in
  let st' := analyzeEntry D st kv in
  L.issues st' = L.issues st ++ L.issues d
  /\ L.totalFiles st' = L.totalFiles st + L.totalFiles d
  /\ L.macosArtifacts st' = L.macosArtifacts st + L.macosArtifacts d
  /\ L.dsStoreFiles st' = L.dsStoreFiles st + L.dsStoreFiles d
  /\ L.encodingIssues st' = L.encodingIssues st + L.encodingIssues d
  /\ L.hiddenFiles st' = L.hiddenFiles st + L.hiddenFiles d.
Proof.
  cbv zeta. unfold analyzeEntry. destruct kv as [path e].
  tally_cases D path e; locals_cbn; rewrite ?app_nil_r, <- ?app_assoc;
    repeat split; (reflexivity || lia).
Qed.

Lemma processEntry_additive opts (st : L.locals) (kv : list Z * ZipEntry) :
  let d := processEntry D opts L.init kv in
  let st' := processEntry D opts st kv in
  L.issues st' = L.issues st ++ L.issues d
  /\ L.totalFiles st' = L.totalFiles st + L.totalFiles d
  /\ L.macosArtifacts st' = L.macosArtifacts st + L.macosArtifacts d
  /\ L.dsStoreFiles st' = L.dsStoreFiles st + L.dsStoreFiles d
  /\ L.encodingIssues st' = L.encodingIssues st + L.encodingIssues d
  /\ L.hiddenFiles st' = L.hiddenFiles st + L.hiddenFiles d
  /\ L.targetZip st' = L.targetZip d ∪ L.targetZip st.
Proof.
  cbv zeta. destruct kv as [path e].
  assert (Hz : L.targetZip (processEntry D opts st (path, e))
               = L.targetZip (processEntry D opts L.init (path, e)) ∪ L.targetZip st).
  { rewrite !processEntry_targetZip. destruct (negb (dir e) && kept opts path).
    - cbn [L.targetZip L.init]. rewrite insert_empty. apply insert_union_singleton_l.
    - cbn [L.targetZip L.init]. symmetry. apply (left_id_L ∅ (∪)). }
  rewrite Hz. clear Hz.
  generalize (L.targetZip (processEntry D opts L.init (path, e)) ∪ L.targetZip st).
  intros z. unfold processEntry.
  loop_cases; locals_cbn; rewrite ?app_nil_r, <- ?app_assoc;
    repeat split; (reflexivity || lia).
Qed.

End LoopFacts.

Section Reports.

Variable D : TextDecoders.

Lemma fold_analyzeEntry_additive (l : list (list Z * ZipEntry)) (st : L.locals) :
  let d := fold_left (analyzeEntry D) l L.init in
  let st' := fold_left (analyzeEntry D) l st in
  L.issues st' = L.issues st ++ L.issues d
  /\ L.totalFiles st' = L.totalFiles st + L.totalFiles d
  /\ L.macosArtifacts st' = L.macosArtifacts st + L.macosArtifacts d
  /\ L.dsStoreFiles st' = L.dsStoreFiles st + L.dsStoreFiles d
  /\ L.encodingIssues st' = L.encodingIssues st + L.encodingIssues d
  /\ L.hiddenFiles st' = L.hiddenFiles st + L.hiddenFiles d.
Proof.
  cbv zeta. repeat split.
  - apply (fold_left_additive (@app _) (analyzeEntry D) L.init L.issues);
      [intros; apply app_assoc | intros; apply app_nil_r
       | intros a x; apply (analyzeEntry_additive D a x)].
  - apply (fold_left_additive Nat.add (analyzeEntry D) L.init L.totalFiles);
      [intros; lia | intros; cbn; lia | intros a x; apply (analyzeEntry_additive D a x)].
  - apply (fold_left_additive Nat.add (analyzeEntry D) L.init L.macosArtifacts);
      [intros; lia | intros; cbn; lia | intros a x; apply (analyzeEntry_additive D a x)].
  - apply (fold_left_additive Nat.add (analyzeEntry D) L.init L.dsStoreFiles);
      [intros; lia | intros; cbn; lia | intros a x; apply (analyzeEntry_additive D a x)].
  - apply (fold_left_additive Nat.add (analyzeEntry D) L.init L.encodingIssues);
      [intros; lia | intros; cbn; lia | intros a x; apply (analyzeEntry_additive D a x)].
  - apply (fold_left_additive Nat.add (analyzeEntry D) L.init L.hiddenFiles);
      [intros; lia | intros; cbn; lia | intros a x; apply (analyzeEntry_additive D a x)].
Qed.

Lemma fold_processEntry_additive opts (l : list (list Z * ZipEntry)) (st : L.locals) :
  let d := fold_left (processEntry D opts) l L.init in
  let st' := fold_left (processEntry D opts) l st in
  L.issues st' = L.issues st ++ L.issues d
  /\ L.totalFiles st' = L.totalFiles st + L.totalFiles d
  /\ L.macosArtifacts st' = L.macosArtifacts st + L.macosArtifacts d
  /\ L.dsStoreFiles st' = L.dsStoreFiles st + L.dsStoreFiles d
  /\ L.encodingIssues st' = L.encodingIssues st + L.encodingIssues d
  /\ L.hiddenFiles st' = L.hiddenFiles st + L.hiddenFiles d
  /\ L.targetZip st' = L.targetZip d ∪ L.targetZip st.
Proof.
  cbv zeta. repeat split.
  - apply (fold_left_additive (@app _) (processEntry D opts) L.init L.issues);
      [intros; apply app_assoc | intros; apply app_nil_r
       | intros a x; apply (processEntry_additive D opts a x)].
  - apply (fold_left_additive Nat.add (processEntry D opts) L.init L.totalFiles);
      [intros; lia | intros; cbn; lia | intros a x; apply (processEntry_additive D opts a x)].
  - apply (fold_left_additive Nat.add (processEntry D opts) L.init L.macosArtifacts);
      [intros; lia | intros; cbn; lia | intros a x; apply (processEntry_additive D opts a x)].
  - apply (fold_left_additive Nat.add (processEntry D opts) L.init L.dsStoreFiles);
      [intros; lia | intros; cbn; lia | intros a x; apply (processEntry_additive D opts a x)].
  - apply (fold_left_additive Nat.add (processEntry D opts) L.init L.encodingIssues);
      [intros; lia | intros; cbn; lia | intros a x; apply (processEntry_additive D opts a x)].
  - apply (fold_left_additive Nat.add (processEntry D opts) L.init L.hiddenFiles);
      [intros; lia | intros; cbn; lia | intros a x; apply (processEntry_additive D opts a x)].
  - apply (fold_left_additive (fun m1 m2 => m2 ∪ m1) (processEntry D opts) L.init
             L.targetZip).
    + intros x y z. symmetry. apply (assoc_L (∪)).
    + intros x. cbn [L.targetZip L.init]. apply (left_id_L ∅ (∪)).
    + intros a x. apply (processEntry_additive D opts a x).
Qed.

(** X6: [totalFiles] is the number of entries that are not directories, in
    both reports and under every option. *)
Theorem totalFiles_counts_files (contents : list (list Z * ZipEntry))
    (options : PartialOptions) :
  totalFiles (analyzeZip D contents) = countFiles (fun _ => true) contents
  /\ totalFiles (processZip D contents options).2 = countFiles (fun _ => true) contents.
Proof.
  unfold analyzeZip, processZip, report, countFiles. cbn [snd totalFiles]. split.
  - apply (fold_left_counter_eq (analyzeEntry D) L.totalFiles
             (fun kv => negb (dir kv.2) && true) (analyzeEntry_total D) contents L.init).
  - apply (fold_left_counter_eq (processEntry D (mergeOptions options)) L.totalFiles
             (fun kv => negb (dir kv.2) && true)
             (processEntry_total D (mergeOptions options)) contents L.init).
Qed.

(** X7: directory entries influence neither report nor the rebuilt archive:
    dropping them from the input changes no result. *)
Theorem directories_are_ignored (contents : list (list Z * ZipEntry))
    (options : PartialOptions) :
  analyzeZip D (List.filter (fun kv => negb (dir kv.2)) contents) = analyzeZip D contents
  /\ processZip D (List.filter (fun kv => negb (dir kv.2)) contents) options
     = processZip D contents options.
Proof.
  unfold analyzeZip, processZip. split.
  - rewrite (fold_left_skip (analyzeEntry D)); [reflexivity|].
    intros a [path e] H. cbn [snd] in H. unfold analyzeEntry.
    destruct (dir e); [reflexivity | discriminate H].
  - rewrite (fold_left_skip (processEntry D (mergeOptions options))); [reflexivity|].
    intros a [path e] H. cbn [snd] in H. unfold processEntry.
    destruct (dir e); [reflexivity | discriminate H].
Qed.

(** X8: the report of [analyzeZip] on two entry lists in a row is the two
    reports put together: the issues of the first followed by the issues of
    the second, and every counter the sum.  No entry changes how another
    is judged. *)
Theorem analyzeZip_app (l1 l2 : list (list Z * ZipEntry)) :
  let r := analyzeZip D (l1 ++ l2) in
  let r1 := analyzeZip D l1 in
  let r2 := analyzeZip D l2 in
  issues r = issues r1 ++ issues r2
  /\ totalFiles r = totalFiles r1 + totalFiles r2
  /\ macosArtifacts r = macosArtifacts r1 + macosArtifacts r2
  /\ dsStoreFiles r = dsStoreFiles r1 + dsStoreFiles r2
  /\ encodingIssues r = encodingIssues r1 + encodingIssues r2
  /\ hiddenFiles r = hiddenFiles r1 + hiddenFiles r2.
Proof.
  cbv zeta. unfold analyzeZip, report.
  cbn [issues totalFiles macosArtifacts dsStoreFiles encodingIssues hiddenFiles].
  rewrite fold_left_app.
  apply (fold_analyzeEntry_additive l2 (fold_left (analyzeEntry D) l1 L.init)).
Qed.

(** X9: [processZip] on two entry lists in a row: the issues and counters
    add up as for [analyzeZip], and the rebuilt archive is the archive of
    the second list laid over the archive of the first, so a name written
    by both carries the payload of the second. *)
Theorem processZip_app (l1 l2 : list (list Z * ZipEntry)) (options : PartialOptions) :
  let r := processZip D (l1 ++ l2) options in
  let r1 := processZip D l1 options in
  let r2 := processZip D l2 options in
  r.1 = r2.1 ∪ r1.1
  /\ issues r.2 = issues r1.2 ++ issues r2.2
  /\ totalFiles r.2 = totalFiles r1.2 + totalFiles r2.2
  /\ macosArtifacts r.2 = macosArtifacts r1.2 + macosArtifacts r2.2
  /\ dsStoreFiles r.2 = dsStoreFiles r1.2 + dsStoreFiles r2.2
  /\ encodingIssues r.2 = encodingIssues r1.2 + encodingIssues r2.2
  /\ hiddenFiles r.2 = hiddenFiles r1.2 + hiddenFiles r2.2.
Proof.
  cbv zeta. unfold processZip, report.
  cbn [fst snd issues totalFiles macosArtifacts dsStoreFiles encodingIssues hiddenFiles].
  rewrite fold_left_app.
  pose proof (fold_processEntry_additive (mergeOptions options) l2
                (fold_left (processEntry D (mergeOptions options)) l1 L.init)) as H.
  cbv zeta in H. tauto.
Qed.

End Reports.

(** ** Preview and rewrite *)

Section PreviewAndRewrite.

Variable D : TextDecoders.

Lemma preview_step opts (a p : L.locals) (kv : list Z * ZipEntry) :
  removeMAcOSArtifacts opts = true -> removeDSStore opts = true ->
  L.totalFiles a = L.totalFiles p /\ L.macosArtifacts a = L.macosArtifacts p
  /\ L.dsStoreFiles a = L.dsStoreFiles p /\ L.hiddenFiles a = L.hiddenFiles p
  /\ (removeHiddenFiles opts = false -> fixEncoding opts = true ->
      L.encodingIssues a = L.encodingIssues p) ->
  let a' := analyzeEntry D a kv in
  let p' := processEntry D opts p kv in
  L.totalFiles a' = L.totalFiles p' /\ L.macosArtifacts a' = L.macosArtifacts p'
  /\ L.dsStoreFiles a' = L.dsStoreFiles p' /\ L.hiddenFiles a' = L.hiddenFiles p'
  /\ (removeHiddenFiles opts = false -> fixEncoding opts = true ->
      L.encodingIssues a' = L.encodingIssues p').
Proof.
  intros Hm Hd (Ht & H1 & H2 & H3 & H4). cbv zeta.
  unfold analyzeEntry, processEntry. destruct kv as [path e]. rewrite Hm, Hd.
  destruct (removeHiddenFiles opts), (fixEncoding opts);
    tally_cases D path e; locals_cbn; repeat split; try lia;
    intros; try discriminate; lia.
Qed.

(** X10: with [removeMAcOSArtifacts] and [removeDSStore] on, the report of
    [processZip] shows the same total and the same metadata, settings-file
    and hidden-file counts as the preview of [analyzeZip]; with
    [removeHiddenFiles] off and [fixEncoding] on as well (the defaults) the
    encoding count and the confidence agree too. *)
Theorem preview_matches_rewrite (contents : list (list Z * ZipEntry))
    (options : PartialOptions) :
  removeMAcOSArtifacts (mergeOptions options) = true ->
  removeDSStore (mergeOptions options) = true ->
  let r := analyzeZip D contents in
  let q := (processZip D contents options).2 in
  totalFiles r = totalFiles q /\ macosArtifacts r = macosArtifacts q
  /\ dsStoreFiles r = dsStoreFiles q /\ hiddenFiles r = hiddenFiles q
  /\ (removeHiddenFiles (mergeOptions options) = false ->
      fixEncoding (mergeOptions options) = true ->
      encodingIssues r = encodingIssues q
      /\ encodingConfidence r = encodingConfidence q).
Proof.
  intros Hm Hd. cbv zeta. unfold analyzeZip, processZip, report.
  cbn [snd totalFiles macosArtifacts dsStoreFiles hiddenFiles encodingIssues
       encodingConfidence].
  pose proof (fold_left_related (analyzeEntry D) (processEntry D (mergeOptions options))
    (fun a p =>
       L.totalFiles a = L.totalFiles p /\ L.macosArtifacts a = L.macosArtifacts p
       /\ L.dsStoreFiles a = L.dsStoreFiles p /\ L.hiddenFiles a = L.hiddenFiles p
       /\ (removeHiddenFiles (mergeOptions options) = false ->
           fixEncoding (mergeOptions options) = true ->
           L.encodingIssues a = L.encodingIssues p))
    contents
    (fun a p kv => preview_step (mergeOptions options) a p kv Hm Hd)
    L.init L.init) as H.
  destruct H as (Ht & H1 & H2 & H3 & H4); [cbn; tauto|].
  repeat split; try assumption.
  - apply H4; assumption.
  - rewrite H1, H2, H4 by assumption. reflexivity.
Qed.

(** *** Names and payloads of the rebuilt archive *)

Lemma fold_targetZip_untouched opts (name : list Z) (l : list (list Z * ZipEntry)) :
  (forall path e, In (path, e) l -> dir e = false -> kept opts path = true ->
                  finalPathOf D opts path <> name) ->
  forall st, L.targetZip (fold_left (processEntry D opts) l st) !! name
             = L.targetZip st !! name.
Proof.
  induction l as [|[path e] l IH]; intros H st; cbn [fold_left]; [reflexivity|].
  rewrite IH by (intros p' e' Hin; apply H; right; exact Hin).
  rewrite processEntry_targetZip.
  destruct (dir e) eqn:Ed; cbn [negb andb]; [reflexivity|].
  destruct (kept opts path) eqn:Ek; [|reflexivity].
  apply lookup_insert_ne. apply (H path e); [left; reflexivity | exact Ed | exact Ek].
Qed.

Lemma fold_targetZip_grows opts (name : list Z) (l : list (list Z * ZipEntry)) :
  forall st, is_Some (L.targetZip st !! name) ->
  is_Some (L.targetZip (fold_left (processEntry D opts) l st) !! name).
Proof.
  induction l as [|[path e] l IH]; intros st H; cbn [fold_left]; [exact H|].
  apply IH. rewrite processEntry_targetZip.
  destruct (negb (dir e) && kept opts path); [|exact H].
  apply lookup_insert_is_Some.
  destruct (decide (finalPathOf D opts path = name)); [left|right]; auto.
Qed.

Lemma fold_targetZip_origin opts (name : list Z) (l : list (list Z * ZipEntry)) :
  forall st, is_Some (L.targetZip (fold_left (processEntry D opts) l st) !! name) ->
  is_Some (L.targetZip st !! name)
  \/ exists path e, In (path, e) l /\ dir e = false /\ kept opts path = true
                    /\ finalPathOf D opts path = name.
Proof.
  induction l as [|[path e] l IH]; intros st H; cbn [fold_left] in H; [left; exact H|].
  destruct (IH _ H) as [Hs | (p' & e' & Hin & Hd & Hk & Hf)].
  - rewrite processEntry_targetZip in Hs.
    destruct (dir e) eqn:Ed; cbn [negb andb] in Hs; [left; exact Hs|].
    destruct (kept opts path) eqn:Ek; [|left; exact Hs].
    apply lookup_insert_is_Some in Hs. destruct Hs as [Hs | [_ Hs]]; [|left; exact Hs].
    right. exists path, e. repeat split; auto. left. reflexivity.
  - right. exists p', e'. repeat split; auto. right. exact Hin.
Qed.

(** X11: when two kept entries end up under one name, the later one wins:
    a kept file entry is in the rebuilt archive under its final name with
    its own payload provided no later kept entry has the same final name. *)
Theorem last_entry_wins (l1 l2 : list (list Z * ZipEntry)) (path : list Z) (e : ZipEntry)
    (options : PartialOptions) :
  dir e = false -> kept (mergeOptions options) path = true ->
  (forall path' e', In (path', e') l2 -> dir e' = false ->
     kept (mergeOptions options) path' = true ->
     finalPathOf D (mergeOptions options) path'
     <> finalPathOf D (mergeOptions options) path) ->
  (processZip D (l1 ++ (path, e) :: l2) options).1
    !! finalPathOf D (mergeOptions options) path = Some (content e).
Proof.
  intros Hd Hk Hl. unfold processZip. cbn [fst].
  rewrite fold_left_app. cbn [fold_left].
  rewrite fold_targetZip_untouched by exact Hl.
  rewrite processEntry_targetZip, Hd, Hk. cbn [negb andb].
  apply lookup_insert_eq.
Qed.

(** X12: the file entries of the rebuilt archive are named exactly by the
    final names of the kept file entries of the source: an entry that is
    dropped, or a directory, contributes no file entry, and every kept
    file entry contributes one under its final name.  (The folder entries
    that the library adds for the parent folders are not file entries.) *)
Theorem output_names (contents : list (list Z * ZipEntry)) (options : PartialOptions)
    (name : list Z) :
  is_Some ((processZip D contents options).1 !! name) <->
  exists path e, In (path, e) contents /\ dir e = false
                 /\ kept (mergeOptions options) path = true
                 /\ finalPathOf D (mergeOptions options) path = name.
Proof.
  unfold processZip. cbn [fst]. split.
  - intros H. apply fold_targetZip_origin in H. destruct H as [H|H]; [|exact H].
    cbn [L.targetZip L.init] in H. rewrite lookup_empty in H.
    destruct H as [x Hx]. discriminate Hx.
  - intros (path & e & Hin & Hd & Hk & <-).
    revert Hin. generalize L.init.
    induction contents as [|[p' e'] l IH]; intros st Hin; [destruct Hin|].
    cbn [fold_left]. destruct Hin as [[= -> ->] | Hin]; [|apply IH; exact Hin].
    apply fold_targetZip_grows. rewrite processEntry_targetZip, Hd, Hk.
    cbn [negb andb]. rewrite lookup_insert_eq. eexists. reflexivity.
Qed.

Lemma map_size_insert_le (m : gmap (list Z) (list Z)) (k v : list Z) :
  size (<[k := v]> m) <= S (size m).
Proof. rewrite map_size_insert. destruct (m !! k); cbn; lia. Qed.

Lemma processEntry_size opts (st : L.locals) (kv : list Z * ZipEntry) :
  size (L.targetZip st) + Spec.count macos_artifact (L.issues st)
  + Spec.count ds_store (L.issues st) + Spec.count hidden_file (L.issues st)
  <= L.totalFiles st ->
  let st' := processEntry D opts st kv in
  size (L.targetZip st') + Spec.count macos_artifact (L.issues st')
  + Spec.count ds_store (L.issues st') + Spec.count hidden_file (L.issues st')
  <= L.totalFiles st'.
Proof.
  intros H. cbv zeta. unfold processEntry. destruct kv as [path e].
  loop_cases; locals_cbn; rewrite ?count_push;
    try match goal with
        | |- context [size (<[?k := ?v]> (L.targetZip st))] =>
            pose proof (map_size_insert_le (L.targetZip st) k v)
        end;
    repeat match goal with
           | |- context [size ?m] =>
               let n := fresh "n" in set (n := size m) in *; clearbody n
           end;
    simpl in *; lia.
Qed.

(** X13: the rebuilt archive never has more file entries than the source
    has files, less the entries reported as removed: the number of its
    file entries plus the number of metadata-artifact, settings-file and
    hidden-file issues is at most [totalFiles].  (Folder entries are not
    counted.) *)
Theorem output_size_bound (contents : list (list Z * ZipEntry)) (options : PartialOptions) :
  let r := processZip D contents options in
  size r.1 + Spec.count macos_artifact (issues r.2)
  + Spec.count ds_store (issues r.2) + Spec.count hidden_file (issues r.2)
  <= totalFiles r.2.
Proof.
  cbv zeta. unfold processZip, report. cbn [fst snd issues totalFiles].
  apply (fold_left_invariant (processEntry D (mergeOptions options))
    (fun st => size (L.targetZip st) + Spec.count macos_artifact (L.issues st)
               + Spec.count ds_store (L.issues st) + Spec.count hidden_file (L.issues st)
               <= L.totalFiles st)).
  - cbn. rewrite map_size_empty. lia.
  - intros st kv _ H. apply (processEntry_size _ st kv H).
Qed.

(** X14: an archive whose file names are ASCII and match none of the three
    clutter patterns yields an empty report: no issue, every clutter and
    encoding counter 0, confidence 0. *)
Theorem clean_archive_empty_report (contents : list (list Z * ZipEntry)) :
  (forall path e, In (path, e) contents -> dir e = false ->
     (forall c, In c path -> (0 <= c < 0x80)%Z)
     /\ isMacOSArtifact path = false /\ isDSStore path = false
     /\ isHiddenFile path = false) ->
  let r := analyzeZip D contents in
  issues r = [] /\ macosArtifacts r = 0 /\ dsStoreFiles r = 0
  /\ encodingIssues r = 0 /\ hiddenFiles r = 0 /\ encodingConfidence r = 0.
Proof.
  intros H. cbv zeta. unfold analyzeZip, report.
  cbn [issues macosArtifacts dsStoreFiles encodingIssues hiddenFiles encodingConfidence].
  assert (Hinv : let st := fold_left (analyzeEntry D) contents L.init in
                 L.issues st = [] /\ L.macosArtifacts st = 0 /\ L.dsStoreFiles st = 0
                 /\ L.encodingIssues st = 0 /\ L.hiddenFiles st = 0).
  { apply (fold_left_invariant (analyzeEntry D)
      (fun st => L.issues st = [] /\ L.macosArtifacts st = 0 /\ L.dsStoreFiles st = 0
                 /\ L.encodingIssues st = 0 /\ L.hiddenFiles st = 0)).
    - cbn. tauto.
    - intros st [path e] Hin Hst. unfold analyzeEntry.
      destruct (dir e) eqn:Ed; [exact Hst|].
      destruct (H path e Hin Ed) as (Ha & -> & -> & ->).
      rewrite (ascii_unfixed D path Ha). locals_cbn. exact Hst. }
  cbv zeta in Hinv. destruct Hinv as (-> & -> & -> & -> & ->). repeat split.
Qed.

End PreviewAndRewrite.

(** ** Archives from host files *)

Lemma addHostFile_targetZip opts (st : L.locals) (file : HostFile) :
  L.targetZip (addHostFile opts st file)
  = if keptHostFile opts file
    then <[relativePathOf file := arrayBuffer file]> (L.targetZip st)
    else L.targetZip st.
Proof.
  unfold addHostFile, keptHostFile.
  destruct (isDSStore _), (isHiddenFile _), (removeDSStore opts), (removeHiddenFiles opts);
    locals_cbn; reflexivity.
Qed.

Lemma addHostFile_counters opts (st : L.locals) (file : HostFile) :
  let st' := addHostFile opts st file in
  L.dsStoreFiles st'
  = L.dsStoreFiles st + (if isDSStore (relativePathOf file) then 1 else 0)
  /\ L.hiddenFiles st'
     = L.hiddenFiles st
       + (if isHiddenFile (relativePathOf file)
             && negb (isDSStore (relativePathOf file) && removeDSStore opts)
          then 1 else 0)
  /\ length (L.issues st')
     = length (L.issues st) + (if negb (keptHostFile opts file) then 1 else 0).
Proof.
  cbv zeta. unfold addHostFile, keptHostFile.
  destruct (isDSStore _), (isHiddenFile _), (removeDSStore opts), (removeHiddenFiles opts);
    locals_cbn; rewrite ?length_app; cbn [length]; repeat split; lia.
Qed.

Lemma createZipFromFiles_tally (files : list HostFile) (options : PartialOptions) :
  let opts := mergeOptions options in
  let r := (createZipFromFiles files options).2 in
  totalFiles r = length files
  /\ dsStoreFiles r
     = length (List.filter (fun f => isDSStore (relativePathOf f)) files)
  /\ hiddenFiles r
     = length (List.filter
                 (fun f => isHiddenFile (relativePathOf f)
                           && negb (isDSStore (relativePathOf f) && removeDSStore opts))
                 files)
  /\ length (issues r)
     = length (List.filter (fun f => negb (keptHostFile opts f)) files).
Proof.
  cbv zeta. unfold createZipFromFiles.
  cbn [snd totalFiles dsStoreFiles hiddenFiles issues].
  repeat split.
  - rewrite fold_addHostFile_total. reflexivity.
  - apply (fold_left_counter_eq (addHostFile (mergeOptions options)) L.dsStoreFiles
             (fun f => isDSStore (relativePathOf f))
             (fun st f => proj1 (addHostFile_counters _ st f)) files L.init).
  - apply (fold_left_counter_eq (addHostFile (mergeOptions options)) L.hiddenFiles
             (fun f => isHiddenFile (relativePathOf f)
                       && negb (isDSStore (relativePathOf f)
                                && removeDSStore (mergeOptions options)))
             (fun st f => proj1 (proj2 (addHostFile_counters _ st f))) files L.init).
  - apply (fold_left_counter_eq (addHostFile (mergeOptions options))
             (fun st => length (L.issues st))
             (fun f => negb (keptHostFile (mergeOptions options) f))
             (fun st f => proj2 (proj2 (addHostFile_counters _ st f))) files L.init).
Qed.

(** X15: the report of [createZipFromFiles] counts every host file in
    [totalFiles], every file whose relative path passes [isDSStore] as a
    settings file, and as hidden every file with a hidden relative path
    that was not already excluded as a settings file; it lists exactly one
    issue for each excluded file. *)
Theorem createZipFromFiles_report (files : list HostFile) (options : PartialOptions) :
  let opts := mergeOptions options in
  let r := (createZipFromFiles files options).2 in
  totalFiles r = length files
  /\ dsStoreFiles r
     = length (List.filter (fun f => isDSStore (relativePathOf f)) files)
  /\ hiddenFiles r
     = length (List.filter
                 (fun f => isHiddenFile (relativePathOf f)
                           && negb (isDSStore (relativePathOf f) && removeDSStore opts))
                 files)
  /\ length (issues r)
     = length (List.filter (fun f => negb (keptHostFile opts f)) files).
Proof. exact (createZipFromFiles_tally files options). Qed.

Lemma fold_addHostFile_origin opts (name data : list Z) (files : list HostFile) :
  forall st, L.targetZip (fold_left (addHostFile opts) files st) !! name = Some data ->
  L.targetZip st !! name = Some data
  \/ exists f, In f files /\ keptHostFile opts f = true
               /\ relativePathOf f = name /\ arrayBuffer f = data.
Proof.
  induction files as [|f files IH]; intros st H; cbn [fold_left] in H; [left; exact H|].
  destruct (IH _ H) as [Hs | (f' & Hin & Hk & Hn & Hd)].
  - rewrite addHostFile_targetZip in Hs.
    destruct (keptHostFile opts f) eqn:Ek; [|left; exact Hs].
    apply lookup_insert_Some in Hs. destruct Hs as [[<- <-] | [_ Hs]]; [|left; exact Hs].
    right. exists f. repeat split; auto. left. reflexivity.
  - right. exists f'. repeat split; auto. right. exact Hin.
Qed.

Lemma fold_addHostFile_grows opts (name : list Z) (files : list HostFile) :
  forall st, is_Some (L.targetZip st !! name) ->
  is_Some (L.targetZip (fold_left (addHostFile opts) files st) !! name).
Proof.
  induction files as [|f files IH]; intros st H; cbn [fold_left]; [exact H|].
  apply IH. rewrite addHostFile_targetZip.
  destruct (keptHostFile opts f); [|exact H].
  apply lookup_insert_is_Some.
  destruct (decide (relativePathOf f = name)); [left|right]; auto.
Qed.

(** X16: [createZipFromFiles] never renames and never alters a payload: every
    file entry of its archive is the content of a host file that was not
    excluded, stored under that file's relative path; and every host file
    that was not excluded has a file entry under its relative path.  (The
    folder entries that the library adds for the parent folders are not
    file entries.) *)
Theorem createZipFromFiles_entries (files : list HostFile) (options : PartialOptions) :
  let out := (createZipFromFiles files options).1 in
  (forall name data, out !! name = Some data ->
     exists f, In f files /\ keptHostFile (mergeOptions options) f = true
               /\ relativePathOf f = name /\ arrayBuffer f = data)
  /\ (forall f, In f files -> keptHostFile (mergeOptions options) f = true ->
        is_Some (out !! relativePathOf f)).
Proof.
  cbv zeta. unfold createZipFromFiles. cbn [fst]. split.
  - intros name data H. apply fold_addHostFile_origin in H.
    destruct H as [H|H]; [|exact H].
    cbn [L.targetZip L.init] in H. rewrite lookup_empty in H. discriminate H.
  - intros f Hin Hk. revert Hin. generalize L.init.
    induction files as [|f' files IH]; intros st Hin; [destruct Hin|].
    cbn [fold_left]. destruct Hin as [-> | Hin]; [|apply IH; exact Hin].
    apply fold_addHostFile_grows. rewrite addHostFile_targetZip, Hk.
    rewrite lookup_insert_eq. eexists. reflexivity.
Qed.

(** ** The page *)

Lemma filter_length_le {A} (f g : A -> bool) (l : list A) :
  (forall x, In x l -> f x = true -> g x = true) ->
  length (List.filter f l) <= length (List.filter g l).
Proof.
  induction l as [|x l IH]; intros H; cbn [List.filter]; [lia|].
  assert (IH' : length (List.filter f l) <= length (List.filter g l))
    by (apply IH; intros y Hy; apply H; right; exact Hy).
  destruct (f x) eqn:Ef.
  - rewrite (H x (or_introl eq_refl) Ef). cbn [length]. lia.
  - destruct (g x); cbn [length]; lia.
Qed.

Lemma isDSStore_includes (path : list Z) :
  isDSStore path = true -> JS.includes (lit ".DS_Store") path = true.
Proof.
  intros H. apply isDSStore_iff in H. apply includes_iff.
  destruct H as [[a ->] | (a & b & ->)].
  - exists a, []. rewrite app_nil_r. reflexivity.
  - exists (a ++ [47%Z]), b. rewrite <- app_assoc. reflexivity.
Qed.

(** X17: the preview that the page shows in folder mode against the report
    of [createZipFromFiles] on the same files: the totals agree; the
    archive report never counts more hidden files than the preview, and
    as many when [removeDSStore] is off; and when every file has a
    non-empty relative path, it never counts more settings files than the
    preview. *)
Theorem folder_preview_bounds_report (fileList : list HostFile) (options : PartialOptions) :
  let p := handleFolderSelect fileList in
  let r := (createZipFromFiles fileList options).2 in
  totalFiles r = totalFiles p
  /\ hiddenFiles r <= hiddenFiles p
  /\ (removeDSStore (mergeOptions options) = false -> hiddenFiles r = hiddenFiles p)
  /\ ((forall f, In f fileList ->
         exists rel, webkitRelativePath f = Some rel /\ rel <> []) ->
      dsStoreFiles r <= dsStoreFiles p).
Proof.
  cbv zeta.
  destruct (createZipFromFiles_tally fileList options) as (Ht & Hd & Hh & _).
  rewrite Ht, Hd, Hh. unfold handleFolderSelect.
  cbn [totalFiles hiddenFiles dsStoreFiles]. repeat split.
  - apply filter_length_le. intros f _ H. apply andb_true_iff in H. apply H.
  - intros ->. f_equal. apply filter_ext. intros f. unfold isHiddenFile.
    rewrite andb_false_r. cbn [negb]. apply andb_true_r.
  - intros Hrel. apply filter_length_le. intros f Hin H.
    destruct (Hrel f Hin) as (rel & Hw & Hne).
    unfold relativePathOf in H. rewrite Hw in *.
    destruct rel as [|c rel]; [congruence|]. cbn [JS.truthy] in H.
    rewrite (isDSStore_includes _ H). apply orb_true_r.
Qed.

Lemma replace_cons (pattern replacement : list Z) (c : Z) (s : list Z) :
  replace pattern replacement (c :: s)
  = if JS.startsWith pattern (c :: s)
    then replacement ++ drop (length pattern) (c :: s)
    else c :: replace pattern replacement s.
Proof. reflexivity. Qed.

Lemma startsWith_app_long (pre s t : list Z) :
  length pre <= length s -> JS.startsWith pre (s ++ t) = JS.startsWith pre s.
Proof.
  revert s. induction pre as [|p pre IH]; intros s H; [reflexivity|].
  destruct s as [|c s]; [cbn in H; lia|].
  cbn [app JS.startsWith]. rewrite IH by (cbn in H; lia). reflexivity.
Qed.

Lemma replace_absent (pattern replacement s : list Z) :
  JS.includes pattern s = false -> replace pattern replacement s = s.
Proof.
  induction s as [|c s IH]; intros H.
  - cbn [JS.includes] in H. cbn [replace]. rewrite H. reflexivity.
  - cbn [JS.includes] in H. apply orb_false_iff in H. destruct H as [H1 H2].
    rewrite replace_cons, H1, IH by exact H2. reflexivity.
Qed.

Lemma replace_first (pattern replacement b c : list Z) :
  pattern <> [] ->
  JS.includes pattern (b ++ removelast pattern) = false ->
  replace pattern replacement (b ++ pattern ++ c) = b ++ replacement ++ c.
Proof.
  intros Hne. induction b as [|x b IH]; intros H.
  - cbn [app]. assert (Hs : JS.startsWith pattern (pattern ++ c) = true)
      by (apply startsWith_iff; exists c; reflexivity).
    destruct (pattern ++ c) as [|y s] eqn:E.
    + destruct pattern; [congruence | discriminate E].
    + rewrite replace_cons, Hs, <- E, drop_app_length. reflexivity.
  - cbn [app JS.includes] in H. apply orb_false_iff in H. destruct H as [H1 H2].
    cbn [app]. rewrite replace_cons.
    assert (Hs : JS.startsWith pattern (x :: b ++ pattern ++ c) = false).
    { rewrite (app_removelast_last 0%Z Hne) at 2.
      rewrite <- (app_assoc (removelast pattern)), (app_assoc b), app_comm_cons.
      rewrite startsWith_app_long; [exact H1|].
      rewrite (app_removelast_last 0%Z Hne) at 1.
      cbn [length]. rewrite !length_app. cbn [length]. lia. }
    rewrite Hs, IH by exact H2. reflexivity.
Qed.

(** X18: the download is named after the selected archive with the first
    [.zip] of its name taken out, wherever that is, and [_fixed.zip]
    appended; a name without [.zip] is kept whole. *)
Theorem download_name (b c n : list Z) :
  (JS.includes (lit ".zip") (b ++ lit ".zi") = false ->
   handleDownload (Some (b ++ lit ".zip" ++ c)) = b ++ c ++ lit "_fixed.zip")
  /\ (n <> [] -> JS.includes (lit ".zip") n = false ->
      handleDownload (Some n) = n ++ lit "_fixed.zip").
Proof.
  unfold handleDownload. split.
  - intros H.
    assert (Ht : JS.truthy (b ++ lit ".zip" ++ c) = true) by (destruct b; reflexivity).
    rewrite Ht, (replace_first (lit ".zip") [] b c); [|discriminate|exact H].
    cbn [app]. rewrite <- app_assoc. reflexivity.
  - intros Hn H. destruct n as [|x n]; [congruence|]. cbn [JS.truthy].
    rewrite replace_absent by exact H. reflexivity.
Qed.

Lemma download_name_witness :
  handleDownload (Some (lit "photos.zip")) = lit "photos_fixed.zip"
  /\ handleDownload (Some (lit "my.zipped.zip")) = lit "myped.zip_fixed.zip"
  /\ handleDownload (Some (lit "notes")) = lit "notes_fixed.zip".
Proof.
  split; [|split].
  - apply (download_name (lit "photos") [] []). reflexivity.
  - apply (download_name (lit "my") (lit "ped.zip") []). reflexivity.
  - apply (download_name [] [] (lit "notes")); [discriminate | reflexivity].
Defined.

(** ** Hidden paths *)

Lemma in_segments (sep : Z) (seg path : list Z) :
  In seg (JS.split sep path) ->
  exists a b, path = a ++ seg ++ b /\ (a = [] \/ exists a', a = a' ++ [sep]).
Proof.
  intros Hin. destruct (in_split _ _ Hin) as (l1 & l2 & Hl).
  assert (Hp : path = join sep (l1 ++ seg :: l2))
    by (rewrite <- Hl; symmetry; apply join_split).
  assert (Hs : exists b, join sep (seg :: l2) = seg ++ b).
  { destruct l2 as [|y l2]; [exists []; cbn; rewrite app_nil_r; reflexivity|].
    exists (sep :: join sep (y :: l2)). reflexivity. }
  destruct Hs as [b Hb]. destruct l1 as [|x l1].
  - exists [], b. split; [rewrite Hp; exact Hb | left; reflexivity].
  - exists (join sep (x :: l1) ++ [sep]), b. split; [|right; eexists; reflexivity].
    rewrite Hp, (join_app sep (x :: l1) (seg :: l2)) by discriminate.
    rewrite Hb, <- app_assoc. reflexivity.
Qed.

(** X19: a hidden path has a dot at the start of a segment: it starts with
    [.] or contains [/.]; so a path with neither is never counted or
    removed as hidden. *)
Theorem hidden_path_has_dot_segment (path : list Z) :
  isHiddenFile path = true ->
  JS.startsWith (lit ".") path = true \/ JS.includes (lit "/.") path = true.
Proof.
  unfold isHiddenFile. cbv zeta. rewrite existsb_exists.
  intros (seg & Hin & H). apply andb_true_iff in H. destruct H as [H _].
  apply startsWith_iff in H. destruct H as [s ->].
  destruct (in_segments 47 _ path Hin) as (a & b & -> & [-> | [a' ->]]).
  - left. apply startsWith_iff. exists (s ++ b). rewrite <- app_assoc. reflexivity.
  - right. apply includes_iff. exists a', (s ++ b).
    rewrite <- !app_assoc. reflexivity.
Qed.

Lemma hidden_path_has_dot_segment_witness :
  JS.startsWith (lit ".") (lit "src/.git/config") = true
  \/ JS.includes (lit "/.") (lit "src/.git/config") = true.
Proof. apply (hidden_path_has_dot_segment (lit "src/.git/config")). reflexivity. Defined.

(** ** Runs on concrete archives *)

Lemma preview_matches_rewrite_witness :
  let contents :=
    [(lit "__MACOSX/._a", {| dir := false; content := [] |});
     (lit ".gitignore", {| dir := false; content := [0x2A%Z] |});
     ([0x85%Z], {| dir := false; content := [0x2B%Z] |})] in
  let none := {| p_removeMAcOSArtifacts := None; p_removeDSStore := None;
                 p_removeHiddenFiles := None; p_fixEncoding := None |} in
  encodingConfidence (analyzeZip Encoding.sample contents) = 55
  /\ encodingConfidence (analyzeZip Encoding.sample contents)
     = encodingConfidence (processZip Encoding.sample contents none).2.
Proof.
  cbv zeta. split; [reflexivity|].
  apply (preview_matches_rewrite Encoding.sample); reflexivity.
Defined.

Lemma last_entry_wins_witness :
  let none := {| p_removeMAcOSArtifacts := None; p_removeDSStore := None;
                 p_removeHiddenFiles := None; p_fixEncoding := None |} in
  (processZip Encoding.sample
     ([([0xD61A%Z], {| dir := false; content := [1%Z] |})]
        ++ ([0x85%Z], {| dir := false; content := [2%Z] |}) :: []) none).1
    !! [0xD61A%Z] = Some [2%Z].
Proof.
  cbv zeta.
  apply (last_entry_wins Encoding.sample
           [([0xD61A%Z], {| dir := false; content := [1%Z] |})] []
           [0x85%Z] {| dir := false; content := [2%Z] |}); try reflexivity.
  intros path' e' [].
Defined.

Lemma output_names_witness :
  let none := {| p_removeMAcOSArtifacts := None; p_removeDSStore := None;
                 p_removeHiddenFiles := None; p_fixEncoding := None |} in
  is_Some ((processZip Encoding.sample
              [(lit ".DS_Store", {| dir := false; content := [] |});
               (lit "a.txt", {| dir := false; content := [0x2A%Z] |})] none).1
             !! lit "a.txt").
Proof.
  cbv zeta. apply (output_names Encoding.sample).
  exists (lit "a.txt"), {| dir := false; content := [0x2A%Z] |}.
  repeat split; try reflexivity. right. left. reflexivity.
Defined.

Lemma clean_archive_empty_report_witness :
  issues (analyzeZip Encoding.sample
            [(lit "docs/", {| dir := true; content := [] |});
             (lit "docs/notes.txt", {| dir := false; content := [0x2A%Z] |})]) = [].
Proof.
  apply (clean_archive_empty_report Encoding.sample).
  intros path e [[= <- <-] | [[= <- <-] | []]] Hd; [discriminate Hd|].
  split; [|repeat split; reflexivity].
  intros u Hu. vm_compute in Hu.
  repeat (destruct Hu as [<-|Hu]; [lia|]). destruct Hu.
Defined.

Lemma createZipFromFiles_entries_witness :
  let f := {| webkitRelativePath := Some (lit "pics/a.jpg"); name := lit "a.jpg";
              arrayBuffer := [0x2A%Z] |} in
  let none := {| p_removeMAcOSArtifacts := None; p_removeDSStore := None;
                 p_removeHiddenFiles := None; p_fixEncoding := None |} in
  is_Some ((createZipFromFiles [f] none).1 !! lit "pics/a.jpg").
Proof.
  cbv zeta.
  pose proof (createZipFromFiles_entries
           [{| webkitRelativePath := Some (lit "pics/a.jpg"); name := lit "a.jpg";
               arrayBuffer := [0x2A%Z] |}]
           {| p_removeMAcOSArtifacts := None; p_removeDSStore := None;
              p_removeHiddenFiles := None; p_fixEncoding := None |}) as H.
  cbv zeta in H. destruct H as [_ H].
  apply (H {| webkitRelativePath := Some (lit "pics/a.jpg"); name := lit "a.jpg";
              arrayBuffer := [0x2A%Z] |}); [left; reflexivity | reflexivity].
Defined.

Lemma folder_preview_bounds_report_witness :
  let fs := [{| webkitRelativePath := Some (lit "d/.DS_Store"); name := lit ".DS_Store";
                arrayBuffer := [] |};
             {| webkitRelativePath := Some (lit "d/my.DS_Store.txt");
                name := lit "my.DS_Store.txt"; arrayBuffer := [] |}] in
  let none := {| p_removeMAcOSArtifacts := None; p_removeDSStore := None;
                 p_removeHiddenFiles := None; p_fixEncoding := None |} in
  dsStoreFiles (handleFolderSelect fs) = 2
  /\ dsStoreFiles (createZipFromFiles fs none).2 <= dsStoreFiles (handleFolderSelect fs).
Proof.
  cbv zeta. split; [reflexivity|].
  pose proof (folder_preview_bounds_report
    [{| webkitRelativePath := Some (lit "d/.DS_Store"); name := lit ".DS_Store";
        arrayBuffer := [] |};
     {| webkitRelativePath := Some (lit "d/my.DS_Store.txt");
        name := lit "my.DS_Store.txt"; arrayBuffer := [] |}]
    {| p_removeMAcOSArtifacts := None; p_removeDSStore := None;
       p_removeHiddenFiles := None; p_fixEncoding := None |}) as H.
  cbv zeta in H. destruct H as (_ & _ & _ & H). apply H.
  intros f [<- | [<- | []]]; eexists; (split; [reflexivity | discriminate]).
Defined.
